(** * mashu-csv-db2: catalog extraction pipeline

    A shallow embedding of the DB2 metadata extractor (types.go, rdbms.go,
    the query helpers, db2.go and the extractors of the SYSIBM and QSYS2
    catalogs) and the properties of its specification.

    Conventions of the embedding.
    - A Go [string] is a Rocq [string] (a sequence of bytes).
    - A Go [error] value is an [option error]: [None] is [nil].
    - A Go [map[string]string] is a [gmap string string].
    - A channel that is written by one goroutine, closed, and read by one
      consumer is the list of the values sent on it, in order.  Every stage
      of the pipeline is a deterministic function of the streams it reads,
      so the concurrent pipeline is the composition of these functions.
    - The context is never cancelled: every [select] takes its channel
      branch. *)

From Stdlib Require Import ZArith Ascii String Sorted.
From stdpp Require Import base option list strings gmap.

Local Open Scope string_scope.
Local Open Scope list_scope.

(** ** Strings *)

(** The line feed character, written [\n] in the Go source. *)
Definition LF : string := String "010"%char EmptyString.

(** [strings.Join(elems, sep)]. *)
Fixpoint Join (elems : list string) (sep : string) : string :=
  match elems with
  | [] => ""
  | [e] => e
  | e :: rest => e +:+ sep +:+ Join rest sep
  end.

(** ** types.go *)

Definition error := string.

(** [Config]: the settings of one run. *)
Record Config := {
  Hostname : string;
  Database : string;
  Port : Z;
  UserID : string;
  Password : string;
  Lang : string;
  Remarks : list string;
  CSVFile : string;
  SystemSchema : string;
  TargetSchema : list string;
}.

(** [Config.TargetSchemaInClause]: [fmt.Sprintf("('%s')", strings.Join(..., "', '"))]. *)
Definition TargetSchemaInClause (c : Config) : string :=
  "('" +:+ Join (TargetSchema c) "', '" +:+ "')".

Record KeyType := {
  Constraint : Z;
  KeyType_Order : Z;
}.

Record Column := {
  Column_Name : string;
  Column_Alias : string;
  Column_Description : string;
  Column_Type : string;
  Column_Mode : Z;
  Column_Order : Z;
  Column_KeyType : KeyType;
}.

Record Metadata := {
  Metadata_Name : string;
  Metadata_Alias : string;
  FormalName : string;
  Metadata_Description : string;
  MetaType : Z;
  Metadata_Lang : string;
  Columns : list Column;
}.

(** The zero values Go gives to a struct that is declared and not filled. *)
Definition zero_KeyType : KeyType := {| Constraint := 0; KeyType_Order := 0 |}.

Definition zero_Column : Column :=
  {| Column_Name := ""; Column_Alias := ""; Column_Description := "";
     Column_Type := ""; Column_Mode := 0; Column_Order := 0;
     Column_KeyType := zero_KeyType |}.

Definition zero_Metadata : Metadata :=
  {| Metadata_Name := ""; Metadata_Alias := ""; FormalName := "";
     Metadata_Description := ""; MetaType := 0; Metadata_Lang := "";
     Columns := [] |}.

(** [Metadata.MetaTypeName]. *)
Definition MetaTypeName (m : Metadata) : string :=
  match MetaType m with
  | 1 => "Table"
  | 2 => "Model"
  | 3 => "Stream"
  | 4 => "File"
  | _ => ""
  end%Z.

(** [Column.ModeName]. *)
Definition ModeName (c : Column) : string :=
  match Column_Mode c with
  | 0 => "Nullable"
  | 1 => "Required"
  | 2 => "Repeated"
  | _ => ""
  end%Z.

(** [KeyType.ConstraintName]. *)
Definition ConstraintName (k : KeyType) : string :=
  match Constraint k with
  | 1 => "Primary"
  | _ => ""
  end%Z.

(** [strings.Builder]: a buffer that [WriteString] appends to. *)
Definition Builder := string.
Definition WriteString (buf : Builder) (s : string) : Builder := buf +:+ s.

(** [fmt.Sprintf("20,,%s,%s,%s,%s,%s\n", ...)] of [ToCSVString]. *)
Definition Sprintf_20 (a1 a2 a3 a4 a5 : string) : string :=
  "20,," +:+ a1 +:+ "," +:+ a2 +:+ "," +:+ a3 +:+ "," +:+ a4 +:+ ","
         +:+ a5 +:+ LF.

(** [fmt.Sprintf("30,,%s,%s,%s,%s,%s,%s\n", ...)] of [ToCSVString]. *)
Definition Sprintf_30 (a1 a2 a3 a4 a5 a6 : string) : string :=
  "30,," +:+ a1 +:+ "," +:+ a2 +:+ "," +:+ a3 +:+ "," +:+ a4 +:+ ","
         +:+ a5 +:+ "," +:+ a6 +:+ LF.

(** The body of the [for _, c := range m.Columns] loop of [ToCSVString]. *)
Definition write_column (buf : Builder) (c : Column) : Builder :=
  WriteString buf
    (Sprintf_30 (Column_Name c) (Column_Alias c) (Column_Description c)
                (Column_Type c) (ModeName c)
                (ConstraintName (Column_KeyType c))).

(** [Metadata.ToCSVString]. *)
Definition ToCSVString (m : Metadata) : string :=
  let buf : Builder := "" in
  let buf := WriteString buf
    (Sprintf_20 (FormalName m) (Metadata_Alias m) (Metadata_Description m)
                (Metadata_Lang m) (MetaTypeName m)) in
  let buf := foldl write_column buf (Columns m) in
  WriteString buf LF.

(** *** The record format of the specification *)

(** One record: its fields joined by commas, without the line end. *)
Definition record (fields : list string) : string := Join fields ",".

(** [20,,<FormalName>,<Alias>,<Description>,<Lang>,<MetaTypeName>] *)
Definition table_record (m : Metadata) : string :=
  record ["20"; ""; FormalName m; Metadata_Alias m; Metadata_Description m;
          Metadata_Lang m; MetaTypeName m].

(** [30,,<Name>,<Alias>,<Description>,<Type>,<ModeName>,<ConstraintName>] *)
Definition column_record (c : Column) : string :=
  record ["30"; ""; Column_Name c; Column_Alias c; Column_Description c;
          Column_Type c; ModeName c; ConstraintName (Column_KeyType c)].

(** The lines of one table's record group: the table record, one record per
    column in column order, and the blank line that ends the group. *)
Definition record_group (m : Metadata) : list string :=
  table_record m :: map column_record (Columns m) ++ [""].

(** Each line followed by a line feed. *)
Definition unlines (ls : list string) : string :=
  foldr (fun l acc => l +:+ LF +:+ acc) "" ls.

(** The example of the specification. *)
Definition emp : Metadata :=
  {| Metadata_Name := ""; Metadata_Alias := ""; FormalName := "DB2INST1.EMP";
     Metadata_Description := ""; MetaType := 1; Metadata_Lang := "ja";
     Columns :=
       [ {| Column_Name := "ID"; Column_Alias := ""; Column_Description := "";
            Column_Type := "INTEGER"; Column_Mode := 1; Column_Order := 0;
            Column_KeyType := {| Constraint := 1; KeyType_Order := 1 |} |} ] |}.

(** ** rdbms.go *)

(** [MetadataInProcess]: what flows through the pipeline, a Metadata and an
    error. *)
Record MetadataInProcess := {
  Data : Metadata;
  Err : option error;
}.

(** [MetadataInProcess{Data: m}] and [MetadataInProcess{Err: err}]; the
    field that is not named takes its zero value. *)
Definition with_Data (m : Metadata) : MetadataInProcess :=
  {| Data := m; Err := None |}.
Definition with_Err (e : error) : MetadataInProcess :=
  {| Data := zero_Metadata; Err := Some e |}.

(** What a receive yields on a closed channel. *)
Definition zero_MetadataInProcess : MetadataInProcess :=
  {| Data := zero_Metadata; Err := None |}.

(** [io.Writer]: [Write] returns the writer after the call and the error of
    the call. *)
Class Writer (W : Type) := Write : W -> string -> W * option error.

(** [bytes.Buffer], and any sink that takes every write. *)
Definition Buffer := string.
#[export] Instance Buffer_Writer : Writer Buffer :=
  fun buf p => (buf +:+ p, None).

(** A sink with room for [room] more bytes, such as a file on a full disk:
    a write that does not fit stores what fits and fails. *)
Record LimitedWriter := { written : string; room : nat }.

Fixpoint take_bytes (n : nat) (s : string) : string :=
  match n, s with
  | S n', String c s' => String c (take_bytes n' s')
  | _, _ => ""
  end.

#[export] Instance LimitedWriter_Writer : Writer LimitedWriter :=
  fun w p =>
    if decide (String.length p <= room w)%nat
    then ({| written := written w +:+ p;
             room := room w - String.length p |}, None)
    else ({| written := written w +:+ take_bytes (room w) p; room := 0 |},
          Some "short write").

(** [writeCSV], on the envelopes that arrive until the channel is closed. *)
Fixpoint writeCSV {W} `{Writer W} (input : list MetadataInProcess) (out : W)
  : W * option error :=
  match input with
  | [] => (out, None)
  | m :: input' =>
      match Write out (ToCSVString (Data m)) with
      | (out', Some err) => (out', Some err)
      | (out', None) => writeCSV input' out'
      end
  end.

(** The sink after the serialization of every envelope's [Data] has been
    written to it, whatever the envelope's [Err]. *)
Definition write_all {W} `{Writer W} (input : list MetadataInProcess) (out : W)
  : W :=
  foldl (fun w m => fst (Write w (ToCSVString (Data m)))) out input.

(** A sink on which no write fails. *)
Definition accepts_all W `{Writer W} : Prop :=
  forall (w : W) (p : string), snd (Write w p) = None.

(** ** The Go library, as far as the extractor uses it *)

(** *** strconv *)

(** The digits of [strconv]'s formatting loop. *)
Definition digits : string := "0123456789abcdefghijklmnopqrstuvwxyz".

Definition digit (d : Z) : ascii :=
  match String.get (Z.to_nat d) digits with
  | Some c => c
  | None => "0"%char
  end.

(** The general case of [strconv.formatBits]: [for u >= b] writes the digit
    of [u - q*b] in front and goes on with [q := u / b]; the last digit is
    that of [u < b].  A [uint64] has at most 64 digits. *)
Fixpoint formatBits (fuel : nat) (u b : Z) (a : string) : string :=
  match fuel with
  | O => a
  | S fuel' =>
      if (b <=? u)%Z
      then formatBits fuel' (u / b)%Z b (String (digit (u - (u / b) * b)%Z) a)
      else String (digit u) a
  end.

(** [strconv.FormatUint(u, base)]. *)
Definition FormatUint (u base : Z) : string := formatBits 65 u base "".

(** [strconv.FormatInt(i, base)]. *)
Definition FormatInt (i base : Z) : string :=
  if (i <? 0)%Z then String "-" (FormatUint (- i) base) else FormatUint i base.

(** [strconv.FormatBool]. *)
Definition FormatBool (b : bool) : string := if b then "true" else "false".

(** The value of a decimal digit. *)
Definition digit_value (c : ascii) : option Z :=
  let n := Z.of_N (N_of_ascii c) in
  if ((48 <=? n) && (n <=? 57))%Z then Some (n - 48)%Z else None.

(** The digit loop of [strconv.Atoi]: [n = n*10 + int(ch - '0')], a syntax
    error at a byte that is no digit. *)
Fixpoint parse_digits (s : string) (n : Z) : option Z :=
  match s with
  | "" => Some n
  | String ch s' =>
      match digit_value ch with
      | Some d => parse_digits s' (n * 10 + d)%Z
      | None => None
      end
  end.

(** The range of [int] on the 64-bit platforms of the DB2 driver. *)
Definition minInt : Z := (- 2 ^ 63)%Z.
Definition maxInt : Z := (2 ^ 63 - 1)%Z.

(** A decimal numeral as [strconv.Atoi] reads it: [s0 := s], an optional
    sign ([if s[0] == '-' || s[0] == '+' { s = s[1:] }]), at least one
    decimal digit and nothing else, and [if s0[0] == '-' { n = -n }]. *)
Definition read_decimal (s0 : string) : option Z :=
  let s :=
    match s0 with
    | String c t => if ((c =? "-") || (c =? "+"))%char then t else s0
    | "" => s0
    end in
  match s with
  | "" => None
  | _ =>
      match parse_digits s 0 with
      | Some n =>
          match s0 with
          | String c _ => if (c =? "-")%char then Some (- n)%Z else Some n
          | "" => Some n
          end
      | None => None
      end
  end.

(** [strconv.Atoi(s)]: [Some i] when the error is nil.  A numeral whose
    value is out of the range of [int] is an error. *)
Definition Atoi (s : string) : option Z :=
  match read_decimal s with
  | Some i => if ((minInt <=? i) && (i <=? maxInt))%Z then Some i else None
  | None => None
  end.

(** [s] is the minimal decimal representation of [i]: it reads as [i], and
    no numeral that reads as [i] is shorter. *)
Definition minimal_decimal (i : Z) (s : string) : Prop :=
  read_decimal s = Some i
  /\ forall s' : string,
       read_decimal s' = Some i -> (String.length s <= String.length s')%nat.

(** *** strings.TrimSpace *)

(** The white space of ASCII: tab, line feed, vertical tab, form feed,
    carriage return, space. *)
Definition asciiSpace (c : ascii) : bool :=
  match N_of_ascii c with
  | 9 | 10 | 11 | 12 | 13 | 32 => true
  | _ => false
  end%N.

(** The UTF-8 encodings of the other runes of [unicode.IsSpace]: U+0085 and
    U+00A0 take two bytes; U+1680, U+2000 to U+200A, U+2028, U+2029, U+202F,
    U+205F and U+3000 take three. *)
Definition space2 (c1 c2 : ascii) : bool :=
  match N_of_ascii c1, N_of_ascii c2 with
  | 194, 133 | 194, 160 => true
  | _, _ => false
  end%N.

Definition space3 (c1 c2 c3 : ascii) : bool :=
  match N_of_ascii c1, N_of_ascii c2, N_of_ascii c3 with
  | 225, 154, 128 => true
  | 226, 128, n => ((128 <=? n) && (n <=? 138) || (n =? 168) || (n =? 169)
                    || (n =? 175))%N
  | 226, 129, 159 => true
  | 227, 128, 128 => true
  | _, _, _ => false
  end%N.

(** [strings.TrimLeftFunc(s, unicode.IsSpace)]: drop white-space runes from
    the front. *)
Fixpoint TrimLeft_space (s : string) : string :=
  match s with
  | String c1 s1 =>
      if asciiSpace c1 then TrimLeft_space s1
      else
        match s1 with
        | String c2 s2 =>
            if space2 c1 c2 then TrimLeft_space s2
            else
              match s2 with
              | String c3 s3 =>
                  if space3 c1 c2 c3 then TrimLeft_space s3 else s
              | _ => s
              end
        | _ => s
        end
  | _ => s
  end.

(** [strings.TrimRightFunc(s, unicode.IsSpace)] on the reversed string: the
    last rune of [s] is decoded from the bytes in front of the end. *)
Fixpoint TrimRight_space_rev (r : string) : string :=
  match r with
  | String c1 r1 =>
      if asciiSpace c1 then TrimRight_space_rev r1
      else
        match r1 with
        | String c2 r2 =>
            if space2 c2 c1 then TrimRight_space_rev r2
            else
              match r2 with
              | String c3 r3 =>
                  if space3 c3 c2 c1 then TrimRight_space_rev r3 else r
              | _ => r
              end
        | _ => r
        end
  | _ => r
  end.

(** [strings.TrimSpace(s)]. *)
Definition TrimSpace (s : string) : string :=
  String.rev (TrimRight_space_rev (String.rev (TrimLeft_space s))).

(** *** Values of unknown type *)

(** What the extractor leaves to Go's library: the rendering of a
    [time.Time], of a floating-point number, and of a value of any other
    type. *)
Class GoRuntime := {
  Time : Type;
  (** [t.Format(layout)] *)
  Time_Format : Time -> string -> string;
  Float : Type;
  (** [strconv.FormatFloat(f, fmt, prec, bitSize)] *)
  FormatFloat : Float -> ascii -> Z -> Z -> string;
  Other : Type;
  (** [fmt.Sprintf("%v", value)] *)
  Sprintf_v : Other -> string;
}.

(** [time.RFC3339Nano]. *)
Definition RFC3339Nano : string := "2006-01-02T15:04:05.999999999Z07:00".

(** The kinds that [ColumnValue.Scan] tells apart with [reflect]. *)
Inductive IntKind := Int | Int8 | Int16 | Int32 | Int64.
Inductive UintKind := Uint | Uint8 | Uint16 | Uint32 | Uint64.
Inductive FloatKind := Float32 | Float64.

(** A value of type [interface{}] as a driver hands it to [Scan]:
    nil, a [string], a [[]byte], a [time.Time], a value of an integer,
    floating-point or boolean kind, or any other value. *)
Inductive Value `{GoRuntime} :=
  | nil_value
  | string_value (src : string)
  | bytes_value (src : string)
  | Time_value (src : Time)
  | Int_value (k : IntKind) (i : Z)
  | Uint_value (k : UintKind) (u : Z)
  | Float_value (k : FloatKind) (f : Float)
  | Bool_value (b : bool)
  | Other_value (x : Other).

(** ** The query helpers *)

(** [ColumnValue]: a string that can be scanned from NULL. *)
Abbreviation ColumnValue := string (only parsing).

Section Query.
Context `{GoRuntime}.


(** [ColumnValue.Scan]: the receiver [v] is a pointer, [None] when nil; the
    result is what it points to after the call and the error. *)
Definition Scan (v : option ColumnValue) (value : Value)
  : option ColumnValue * option error :=
  match v with
  | None => (None, Some "destination pointer is nil")
  | Some _ =>
      match value with
      | nil_value => (Some "", None)
      | string_value src => (Some src, None)
      | bytes_value src => (Some src, None)
      | Time_value src => (Some (Time_Format src RFC3339Nano), None)
      | Int_value _ i => (Some (FormatInt i 10), None)
      | Uint_value _ u => (Some (FormatUint u 10), None)
      | Float_value Float64 f => (Some (FormatFloat f "g" (-1) 64), None)
      | Float_value Float32 f => (Some (FormatFloat f "g" (-1) 32), None)
      | Bool_value b => (Some (FormatBool b), None)
      | Other_value x => (Some (Sprintf_v x), None)
      end
  end.

(** [Row]: the column names of a query and the values of the current row.
    [pointers[i]] is [&values[i]]. *)
Record Row := {
  names : list string;
  values : list ColumnValue;
}.

(** [NewRow]. *)
Definition NewRow (names : list string) : Row :=
  {| names := names; values := replicate (length names) "" |}.

(** [Row.Names]. *)
Definition Names (r : Row) : string := Join (names r) ",".

(** The loop of [Row.Map], [for i, name := range r.names], from index [i]
    on.  [values[i]] exists for every index of [names] in a Row made by
    [NewRow]; an index out of range would stop the program, and the
    embedding skips it. *)
Fixpoint Map_loop (i : nat) (names : list string) (values : list ColumnValue)
    (m : gmap string string) : gmap string string :=
  match names with
  | [] => m
  | name :: names' =>
      let m :=
        match values !! i with
        | Some v => if decide (v = "") then m else <[name := v]> m
        | None => m
        end in
      Map_loop (S i) names' values m
  end.

(** [Row.Map]. *)
Definition Map (r : Row) : gmap string string :=
  Map_loop 0 (names r) (values r) ∅.

(** [Query]. *)
Record Query := {
  row : Row;
  stmt : string;
}.

(** [NewQuery]. *)
Definition NewQuery (columns : list string) (stmt : string) : Query :=
  {| row := NewRow columns; stmt := stmt |}.

(** [Query.Stmt]. *)
Definition Stmt (q : Query) : string :=
  "SELECT " +:+ Names (row q) +:+ " " +:+ stmt q.

(** What a non-nil [*ColumnValue] points to after [Scan(value)]. *)
Definition scanned (old : ColumnValue) (value : Value) : ColumnValue :=
  default old (fst (Scan (Some old) value)).

(** [rows.Scan(r.pointers...)] of [database/sql]: an error when the row does
    not have one value per destination, else every [&values[i]] scans its
    value ([Scan] has no error for them). *)
Definition Rows_Scan (r : Row) (src : list Value) : Row + error :=
  if decide (length src = length (values r))
  then inl {| names := names r; values := zip_with scanned (values r) src |}
  else inr "sql: expected destination arguments in Scan".

(** [Query.Scan]: the current row as a map from column name to value. *)
Definition Query_Scan (q : Query) (src : list Value)
  : gmap string string + error :=
  match Rows_Scan (row q) src with
  | inl r => inl (Map r)
  | inr err => inr err
  end.

(** [rows.Scan(&column)] of [ColumnList], whose error is dropped: [column]
    keeps its zero value when the row is not one value, or is NULL. *)
Definition Rows_Scan_string (src : list Value) : string :=
  match src with
  | [nil_value] => ""
  | [value] => scanned "" value
  | _ => ""
  end.

(** What the database answers to a query: its rows, or an error. *)
Definition QueryResult : Type := list (list Value) + error.

(** [ColumnList], given the answer to its query. *)
Definition ColumnList (answer : QueryResult) : list string + error :=
  match answer with
  | inr err => inr err
  | inl rows => inl (Rows_Scan_string <$> rows)
  end.

End Query.

(** ** The extractors *)

(** Assignments to the fields of a [Metadata] and of a [Column]. *)
Definition set_Metadata_Name (v : string) (m : Metadata) : Metadata :=
  {| Metadata_Name := v; Metadata_Alias := Metadata_Alias m;
     FormalName := FormalName m;
     Metadata_Description := Metadata_Description m; MetaType := MetaType m;
     Metadata_Lang := Metadata_Lang m; Columns := Columns m |}.

Definition set_FormalName (v : string) (m : Metadata) : Metadata :=
  {| Metadata_Name := Metadata_Name m; Metadata_Alias := Metadata_Alias m;
     FormalName := v;
     Metadata_Description := Metadata_Description m; MetaType := MetaType m;
     Metadata_Lang := Metadata_Lang m; Columns := Columns m |}.

Definition set_Metadata_Alias (v : string) (m : Metadata) : Metadata :=
  {| Metadata_Name := Metadata_Name m; Metadata_Alias := v;
     FormalName := FormalName m;
     Metadata_Description := Metadata_Description m; MetaType := MetaType m;
     Metadata_Lang := Metadata_Lang m; Columns := Columns m |}.

Definition set_Metadata_Description (v : string) (m : Metadata) : Metadata :=
  {| Metadata_Name := Metadata_Name m; Metadata_Alias := Metadata_Alias m;
     FormalName := FormalName m;
     Metadata_Description := v; MetaType := MetaType m;
     Metadata_Lang := Metadata_Lang m; Columns := Columns m |}.

Definition set_Columns (v : list Column) (m : Metadata) : Metadata :=
  {| Metadata_Name := Metadata_Name m; Metadata_Alias := Metadata_Alias m;
     FormalName := FormalName m;
     Metadata_Description := Metadata_Description m; MetaType := MetaType m;
     Metadata_Lang := Metadata_Lang m; Columns := v |}.

Definition set_Column_Name (v : string) (c : Column) : Column :=
  {| Column_Name := v; Column_Alias := Column_Alias c;
     Column_Description := Column_Description c; Column_Type := Column_Type c;
     Column_Mode := Column_Mode c; Column_Order := Column_Order c;
     Column_KeyType := Column_KeyType c |}.

Definition set_Column_Alias (v : string) (c : Column) : Column :=
  {| Column_Name := Column_Name c; Column_Alias := v;
     Column_Description := Column_Description c; Column_Type := Column_Type c;
     Column_Mode := Column_Mode c; Column_Order := Column_Order c;
     Column_KeyType := Column_KeyType c |}.

Definition set_Column_Description (v : string) (c : Column) : Column :=
  {| Column_Name := Column_Name c; Column_Alias := Column_Alias c;
     Column_Description := v; Column_Type := Column_Type c;
     Column_Mode := Column_Mode c; Column_Order := Column_Order c;
     Column_KeyType := Column_KeyType c |}.

Definition set_Column_Type (v : string) (c : Column) : Column :=
  {| Column_Name := Column_Name c; Column_Alias := Column_Alias c;
     Column_Description := Column_Description c; Column_Type := v;
     Column_Mode := Column_Mode c; Column_Order := Column_Order c;
     Column_KeyType := Column_KeyType c |}.

Definition set_Column_Mode (v : Z) (c : Column) : Column :=
  {| Column_Name := Column_Name c; Column_Alias := Column_Alias c;
     Column_Description := Column_Description c; Column_Type := Column_Type c;
     Column_Mode := v; Column_Order := Column_Order c;
     Column_KeyType := Column_KeyType c |}.

Definition set_Column_Order (v : Z) (c : Column) : Column :=
  {| Column_Name := Column_Name c; Column_Alias := Column_Alias c;
     Column_Description := Column_Description c; Column_Type := Column_Type c;
     Column_Mode := Column_Mode c; Column_Order := v;
     Column_KeyType := Column_KeyType c |}.

Definition set_Column_KeyType (v : KeyType) (c : Column) : Column :=
  {| Column_Name := Column_Name c; Column_Alias := Column_Alias c;
     Column_Description := Column_Description c; Column_Type := Column_Type c;
     Column_Mode := Column_Mode c; Column_Order := Column_Order c;
     Column_KeyType := v |}.

(** [meta.Columns = append(meta.Columns, col)]. *)
Definition append_Column (col : Column) (meta : Metadata) : Metadata :=
  set_Columns (Columns meta ++ [col]) meta.

(** The body of [for _, str := range e.config.Remarks { switch str ... }]
    on a [Metadata] and on a [Column]. *)
Definition remark_Metadata (v : string) (meta : Metadata) (str : string)
  : Metadata :=
  if decide (str = "Alias") then set_Metadata_Alias v meta
  else if decide (str = "Description") then set_Metadata_Description v meta
  else meta.

Definition remark_Column (v : string) (col : Column) (str : string) : Column :=
  if decide (str = "Alias") then set_Column_Alias v col
  else if decide (str = "Description") then set_Column_Description v col
  else col.

(** [&Metadata{MetaType: 1, Lang: e.config.Lang}]. *)
Definition new_Metadata (config : Config) : Metadata :=
  {| Metadata_Name := ""; Metadata_Alias := ""; FormalName := "";
     Metadata_Description := ""; MetaType := 1; Metadata_Lang := Lang config;
     Columns := [] |}.

(** The mode of a column from its nullability flag. *)
Definition nullable_Mode (v : string) : Z := if decide (v = "Y") then 0 else 1.

(** What the three extractors differ in: the texts of their four queries,
    and the maps from a catalog row to a [Metadata] and to a [Column] with
    the formal name of its table.  [Run], [extractTables] and
    [extractColumns] are the same in the three of them. *)
Record Extractor := {
  tables_ColumnList : string;
  tables_FROM : string -> string;
  columns_ColumnList : string;
  columns_FROM : string -> string;
  toMetadata : Config -> gmap string string -> Metadata;
  toColumn : Config -> gmap string string -> Column * string;
}.

(** *** The texts of the queries *)

(** [Db2Extractor]: the query of [ColumnList] in [extractTables]. *)
Definition Db2_tables_ColumnList : string :=
  "
			SELECT COLNAME
			FROM SYSCAT.COLUMNS
			WHERE TABSCHEMA='SYSCAT'
			  AND TABNAME='TABLES'
			ORDER BY COLNO".

(** [Db2Extractor]: the statement of [NewQuery] in [extractTables], a [fmt.Sprintf] format. *)
Definition Db2_tables_FROM (in_clause : string) : string :=
  "FROM SYSCAT.TABLES
			WHERE TYPE in ('S', 'T', 'U', 'V', 'W')
			  AND TABSCHEMA in " +:+ in_clause +:+ "
			ORDER BY TABSCHEMA, TABNAME".

(** [Db2Extractor]: the query of [ColumnList] in [extractColumns]. *)
Definition Db2_columns_ColumnList : string :=
  "
			SELECT COLNAME 
			FROM SYSCAT.COLUMNS 
			WHERE TABSCHEMA='SYSCAT'
			  AND TABNAME='COLUMNS'
			ORDER BY COLNO".

(** [Db2Extractor]: the statement of [NewQuery] in [extractColumns], a [fmt.Sprintf] format. *)
Definition Db2_columns_FROM (in_clause : string) : string :=
  "FROM SYSCAT.COLUMNS
		    WHERE TABSCHEMA in " +:+ in_clause +:+ "
			ORDER BY TABSCHEMA, TABNAME, COLNO".

(** [ZDb2Extractor]: the query of [ColumnList] in [extractTables]. *)
Definition ZDb2_tables_ColumnList : string :=
  "
			SELECT NAME
			FROM SYSIBM.SYSCOLUMNS
			WHERE TBCREATOR='SYSIBM'
			  AND TBNAME='SYSTABLES'
			ORDER BY COLNO".

(** [ZDb2Extractor]: the statement of [NewQuery] in [extractTables], a [fmt.Sprintf] format. *)
Definition ZDb2_tables_FROM (in_clause : string) : string :=
  "FROM SYSIBM.SYSTABLES
			WHERE TYPE != 'A'
              AND CREATOR in " +:+ in_clause +:+ "
			ORDER BY CREATOR, NAME".

(** [ZDb2Extractor]: the query of [ColumnList] in [extractColumns]. *)
Definition ZDb2_columns_ColumnList : string :=
  "
			SELECT NAME 
			FROM SYSIBM.SYSCOLUMNS 
			WHERE TBCREATOR='SYSIBM'
			  AND TBNAME='SYSCOLUMNS'
			ORDER BY COLNO".

(** [ZDb2Extractor]: the statement of [NewQuery] in [extractColumns], a [fmt.Sprintf] format. *)
Definition ZDb2_columns_FROM (in_clause : string) : string :=
  "FROM SYSIBM.SYSCOLUMNS
			WHERE TBCREATOR in " +:+ in_clause +:+ "
			ORDER BY TBCREATOR, TBNAME, COLNO".

(** [IDb2Extractor]: the query of [ColumnList] in [extractTables]. *)
Definition IDb2_tables_ColumnList : string :=
  "
			SELECT COLUMN_NAME
			FROM QSYS2.SYSCOLUMNS
			WHERE TABLE_OWNER='QSYS2'
			  AND TABLE_NAME='SYSTABLES'
			ORDER BY ORDINAL_POSITION".

(** [IDb2Extractor]: the statement of [NewQuery] in [extractTables], a [fmt.Sprintf] format. *)
Definition IDb2_tables_FROM (in_clause : string) : string :=
  "FROM QSYS2.SYSTABLES
			WHERE TYPE != 'A'
              AND TABLE_OWNER in " +:+ in_clause +:+ "
			ORDER BY TABLE_OWNER, TABLE_NAME".

(** [IDb2Extractor]: the query of [ColumnList] in [extractColumns]. *)
Definition IDb2_columns_ColumnList : string :=
  "
			SELECT COLUMN_NAME 
			FROM QSYS2.SYSCOLUMNS 
			WHERE TABLE_OWNER='QSYS2'
			  AND TABLE_NAME='SYSCOLUMNS'
			ORDER BY ORDINAL_POSITION".

(** [IDb2Extractor]: the statement of [NewQuery] in [extractColumns], a [fmt.Sprintf] format. *)
Definition IDb2_columns_FROM (in_clause : string) : string :=
  "FROM QSYS2.SYSCOLUMNS
			WHERE TABLE_OWNER in " +:+ in_clause +:+ "
			ORDER BY TABLE_OWNER, TABLE_NAME, ORDINAL_POSITION".

(** *** SYSCAT (db2.go) *)

(** [Db2Extractor.toMetadata]. *)
Definition Db2_toMetadata (config : Config) (m : gmap string string)
  : Metadata :=
  let meta := new_Metadata config in
  let meta :=
    match m !! "TABNAME" with
    | Some v => set_Metadata_Name v meta
    | None => meta
    end in
  let meta :=
    match m !! "TABSCHEMA" with
    | Some v =>
        if decide (Metadata_Name meta <> "")
        then set_FormalName (TrimSpace v +:+ "." +:+ Metadata_Name meta) meta
        else meta
    | None => meta
    end in
  meta.

(** [Db2Extractor.toColumn]. *)
Definition Db2_toColumn (config : Config) (m : gmap string string)
  : Column * string :=
  let col := zero_Column in
  let col :=
    match m !! "COLNAME" with
    | Some v => set_Column_Name v col
    | None => col
    end in
  let col :=
    match m !! "TYPENAME" with
    | Some t =>
        match m !! "TYPESCHEMA" with
        | Some s => set_Column_Type (TrimSpace s +:+ "." +:+ t) col
        | None => set_Column_Type t col
        end
    | None => col
    end in
  let col :=
    match m !! "NULLS" with
    | Some v => set_Column_Mode (nullable_Mode v) col
    | None => col
    end in
  let col :=
    match m !! "COLNO" with
    | Some v =>
        match Atoi v with
        | Some i => set_Column_Order i col
        | None => col
        end
    | None => col
    end in
  let formalName := "" in
  let formalName :=
    match m !! "TABSCHEMA" with
    | Some v => TrimSpace v
    | None => formalName
    end in
  let formalName := formalName +:+ "." in
  let formalName :=
    match m !! "TABNAME" with
    | Some v => formalName +:+ v
    | None => formalName
    end in
  let col :=
    match m !! "KEYSEQ" with
    | Some v =>
        match Atoi v with
        | Some i =>
            set_Column_KeyType {| Constraint := 1; KeyType_Order := i |} col
        | None => col
        end
    | None => col
    end in
  let col :=
    match m !! "REMARKS" with
    | Some v => foldl (remark_Column v) col (Remarks config)
    | None => col
    end in
  (col, formalName).

Definition Db2Extractor : Extractor :=
  {| tables_ColumnList := Db2_tables_ColumnList;
     tables_FROM := Db2_tables_FROM;
     columns_ColumnList := Db2_columns_ColumnList;
     columns_FROM := Db2_columns_FROM;
     toMetadata := Db2_toMetadata;
     toColumn := Db2_toColumn |}.

(** *** SYSIBM *)

(** [ZDb2Extractor.toMetadata]. *)
Definition ZDb2_toMetadata (config : Config) (m : gmap string string)
  : Metadata :=
  let meta := new_Metadata config in
  let meta :=
    match m !! "NAME" with
    | Some v => set_Metadata_Name v meta
    | None => meta
    end in
  let meta :=
    match m !! "CREATOR" with
    | Some v =>
        if decide (Metadata_Name meta <> "")
        then set_FormalName (TrimSpace v +:+ "." +:+ Metadata_Name meta) meta
        else meta
    | None => meta
    end in
  let meta :=
    match m !! "REMARKS" with
    | Some v => foldl (remark_Metadata v) meta (Remarks config)
    | None => meta
    end in
  meta.

(** [ZDb2Extractor.toColumn]. *)
Definition ZDb2_toColumn (config : Config) (m : gmap string string)
  : Column * string :=
  let col := zero_Column in
  let col :=
    match m !! "NAME" with
    | Some v => set_Column_Name v col
    | None => col
    end in
  let col :=
    match m !! "COLTYPE" with
    | Some v => set_Column_Type (TrimSpace v) col
    | None => col
    end in
  let col :=
    match m !! "NULLS" with
    | Some v => set_Column_Mode (nullable_Mode v) col
    | None => col
    end in
  let col :=
    match m !! "COLNO" with
    | Some v =>
        match Atoi v with
        | Some i => set_Column_Order i col
        | None => col
        end
    | None => col
    end in
  let formalName := "" in
  let formalName :=
    match m !! "TBCREATOR" with
    | Some v => TrimSpace v
    | None => formalName
    end in
  let formalName := formalName +:+ "." in
  let formalName :=
    match m !! "TBNAME" with
    | Some v => formalName +:+ v
    | None => formalName
    end in
  let col :=
    match m !! "KEYSEQ" with
    | Some v =>
        match Atoi v with
        | Some i =>
            set_Column_KeyType {| Constraint := 1; KeyType_Order := i |} col
        | None => col
        end
    | None => col
    end in
  let col :=
    match m !! "REMARKS" with
    | Some v => foldl (remark_Column v) col (Remarks config)
    | None => col
    end in
  let col :=
    match m !! "LABEL" with
    | Some v => set_Column_Alias v col
    | None => col
    end in
  (col, formalName).

Definition ZDb2Extractor : Extractor :=
  {| tables_ColumnList := ZDb2_tables_ColumnList;
     tables_FROM := ZDb2_tables_FROM;
     columns_ColumnList := ZDb2_columns_ColumnList;
     columns_FROM := ZDb2_columns_FROM;
     toMetadata := ZDb2_toMetadata;
     toColumn := ZDb2_toColumn |}.

(** *** QSYS2 *)

(** [IDb2Extractor.toMetadata]. *)
Definition IDb2_toMetadata (config : Config) (m : gmap string string)
  : Metadata :=
  let meta := new_Metadata config in
  let meta :=
    match m !! "TABLE_NAME" with
    | Some v => set_Metadata_Name v meta
    | None => meta
    end in
  let meta :=
    match m !! "TABLE_OWNER" with
    | Some v =>
        if decide (Metadata_Name meta <> "")
        then set_FormalName (TrimSpace v +:+ "." +:+ Metadata_Name meta) meta
        else meta
    | None => meta
    end in
  let meta :=
    match m !! "LONG_COMMENT" with
    | Some v => foldl (remark_Metadata v) meta (Remarks config)
    | None => meta
    end in
  meta.

(** [IDb2Extractor.toColumn]. *)
Definition IDb2_toColumn (config : Config) (m : gmap string string)
  : Column * string :=
  let col := zero_Column in
  let col :=
    match m !! "COLUMN_NAME" with
    | Some v => set_Column_Name v col
    | None => col
    end in
  let col :=
    match m !! "DATA_TYPE" with
    | Some v => set_Column_Type (TrimSpace v) col
    | None => col
    end in
  let col :=
    match m !! "IS_NULLABLE" with
    | Some v => set_Column_Mode (nullable_Mode v) col
    | None => col
    end in
  let col :=
    match m !! "ORDINAL_POSITION" with
    | Some v =>
        match Atoi v with
        | Some i => set_Column_Order i col
        | None => col
        end
    | None => col
    end in
  let formalName := "" in
  let formalName :=
    match m !! "TABLE_OWNER" with
    | Some v => TrimSpace v
    | None => formalName
    end in
  let formalName := formalName +:+ "." in
  let formalName :=
    match m !! "TABLE_NAME" with
    | Some v => formalName +:+ v
    | None => formalName
    end in
  let col :=
    match m !! "IS_IDENTITY" with
    | Some v =>
        if decide (v = "YES")
        then set_Column_KeyType {| Constraint := 1; KeyType_Order := 0 |} col
        else col
    | None => col
    end in
  let col :=
    match m !! "COLUMN_TEXT" with
    | Some v => foldl (remark_Column v) col (Remarks config)
    | None => col
    end in
  let col :=
    match m !! "COLUMN_HEADING" with
    | Some v => set_Column_Alias v col
    | None => col
    end in
  (col, formalName).

Definition IDb2Extractor : Extractor :=
  {| tables_ColumnList := IDb2_tables_ColumnList;
     tables_FROM := IDb2_tables_FROM;
     columns_ColumnList := IDb2_columns_ColumnList;
     columns_FROM := IDb2_columns_FROM;
     toMetadata := IDb2_toMetadata;
     toColumn := IDb2_toColumn |}.

(** The three catalogs that have an extractor, with the catalog field that
    holds the remarks of a table. *)
Inductive Dialect := SYSCAT | SYSIBM | QSYS2.

Definition extractor_of (d : Dialect) : Extractor :=
  match d with
  | SYSCAT => Db2Extractor
  | SYSIBM => ZDb2Extractor
  | QSYS2 => IDb2Extractor
  end.

Definition system_schema (d : Dialect) : string :=
  match d with
  | SYSCAT => "SYSCAT"
  | SYSIBM => "SYSIBM"
  | QSYS2 => "QSYS2"
  end.

(** [Db2Driver], the name of the driver of DB2 (main.go). *)
Definition Db2Driver : string := "go_ibm_db".

(** [register] (rdbms.go), on the map [extractors]. *)
Definition register (name : string) (extractor : Extractor)
    (extractors : gmap string Extractor) : gmap string Extractor :=
  <[name := extractor]> extractors.

(** [extractors] after the [init] functions of the three extractors. *)
Definition extractors : gmap string Extractor :=
  register (Db2Driver +:+ ".QSYS2") IDb2Extractor
    (register (Db2Driver +:+ ".SYSIBM") ZDb2Extractor
       (register (Db2Driver +:+ ".SYSCAT") Db2Extractor ∅)).

(** [GetExtractor]: [None] is the nil it returns for a name that is not
    registered. *)
Definition GetExtractor (name : string) : option Extractor :=
  extractors !! name.

Definition table_remarks_field (d : Dialect) : string :=
  match d with
  | SYSCAT => "REMARKS"
  | SYSIBM => "REMARKS"
  | QSYS2 => "LONG_COMMENT"
  end.

(** ** The pipeline *)

Section Pipeline.
Context `{GoRuntime}.

(** The database of one run: the error of [sql.Open], and the answer of
    [db.QueryContext] to the text of a query. *)
Record DB := {
  sql_Open : option error;
  QueryContext : string -> QueryResult;
}.

(** [Query.Exec]. *)
Definition Exec (q : Query) (db : DB) : QueryResult :=
  QueryContext db (Stmt q).

(** The loop [for rows.Next()] of [extractTables] on the rows that are left:
    what it sends before the channel is closed. *)
Fixpoint tables_loop (e : Extractor) (config : Config) (query : Query)
    (rows : list (list Value)) : list MetadataInProcess :=
  match rows with
  | [] => []
  | src :: rows' =>
      match Query_Scan query src with
      | inr err => [with_Err err]
      | inl m =>
          with_Data (toMetadata e config m) :: tables_loop e config query rows'
      end
  end.

(** [extractTables]: the envelopes sent on the channel it returns. *)
Definition extractTables (e : Extractor) (config : Config) (db : DB)
  : list MetadataInProcess :=
  match ColumnList (QueryContext db (tables_ColumnList e)) with
  | inr err => [with_Err err]
  | inl cols =>
      let query :=
        NewQuery cols (tables_FROM e (TargetSchemaInClause config)) in
      match Exec query db with
      | inr err => [with_Err err]
      | inl rows => tables_loop e config query rows
      end
  end.

(** The variables of the loop of [extractColumns], the envelopes of [input]
    not yet received, and the envelopes sent on [output] so far. *)
Record LoopState := {
  meta : option Metadata;
  col : option Column;
  formalName : string;
  input : list MetadataInProcess;
  output : list MetadataInProcess;
}.

(** A step of the loop goes on with a new state, or it returns and the
    channel is closed after the envelopes sent. *)
Definition Step : Type := LoopState + list MetadataInProcess.

(** [mip := <-input]: a closed channel yields the zero value. *)
Definition receive (input : list MetadataInProcess)
  : MetadataInProcess * list MetadataInProcess :=
  match input with
  | mip :: input' => (mip, input')
  | [] => (zero_MetadataInProcess, [])
  end.

(** The error of a table whose formal name is not the one of the column
    carried over. *)
Definition correlation_error (meta_FormalName formalName : string) : error :=
  "meta.FormalName(" +:+ meta_FormalName +:+ ") != formalName(" +:+ formalName
    +:+ ")".

(** The block [if meta == nil { ... }]: receive the next table, send on an
    envelope with an error and return, else hold the table, report a formal
    name that differs from the one of the column carried over, and append
    that column. *)
Definition pull (st : LoopState) : Step :=
  match meta st with
  | Some _ => inl st
  | None =>
      let '(mip, input') := receive (input st) in
      match Err mip with
      | Some _ => inr (output st ++ [mip])
      | None =>
          let meta' := Data mip in
          match col st with
          | Some c =>
              let output' :=
                if decide (FormalName meta' <> formalName st)
                then output st
                       ++ [with_Err (correlation_error (FormalName meta')
                                       (formalName st))]
                else output st in
              inl {| meta := Some (append_Column c meta'); col := col st;
                     formalName := formalName st; input := input';
                     output := output' |}
          | None =>
              inl {| meta := Some meta'; col := col st;
                     formalName := formalName st; input := input';
                     output := output st |}
          end
      end
  end.

(** The rest of the body, from [m, err := query.Scan(rows)] on, with a table
    held. *)
Definition accumulate (e : Extractor) (config : Config) (held : Metadata)
    (st : LoopState) (scan : gmap string string + error) : Step :=
  match scan with
  | inr err => inr (output st ++ [with_Err err])
  | inl m =>
      let '(c, name) := toColumn e config m in
      if decide (FormalName held = name)
      then inl {| meta := Some (append_Column c held); col := Some c;
                  formalName := name; input := input st;
                  output := output st |}
      else inl {| meta := None; col := Some c; formalName := name;
                  input := input st;
                  output := output st ++ [with_Data held] |}
  end.

(** The body of [for rows.Next()] in [extractColumns] for the row [src]. *)
Definition columns_body (e : Extractor) (config : Config) (query : Query)
    (st : LoopState) (src : list Value) : Step :=
  match pull st with
  | inr out => inr out
  | inl st' =>
      match meta st' with
      | Some held => accumulate e config held st' (Query_Scan query src)
      | None => inl st'
      end
  end.

(** The loop [for rows.Next()] of [extractColumns]. *)
Fixpoint columns_loop (e : Extractor) (config : Config) (query : Query)
    (st : LoopState) (rows : list (list Value)) : Step :=
  match rows with
  | [] => inl st
  | src :: rows' =>
      match columns_body e config query st src with
      | inr out => inr out
      | inl st' => columns_loop e config query st' rows'
      end
  end.

(** [if meta != nil { output <- MetadataInProcess{Data: *meta} }] after the
    loop, and the close of the channel. *)
Definition flush (s : Step) : list MetadataInProcess :=
  match s with
  | inr out => out
  | inl st =>
      match meta st with
      | Some held => output st ++ [with_Data held]
      | None => output st
      end
  end.

(** The variables before the first row. *)
Definition start (input : list MetadataInProcess) : LoopState :=
  {| meta := None; col := None; formalName := ""; input := input;
     output := [] |}.

(** [extractColumns] from the loop on: the envelopes sent for the rows of
    the columns query. *)
Definition correlate (e : Extractor) (config : Config) (query : Query)
    (input : list MetadataInProcess) (rows : list (list Value))
  : list MetadataInProcess :=
  flush (columns_loop e config query (start input) rows).

(** [extractColumns]: the envelopes sent on the channel it returns. *)
Definition extractColumns (e : Extractor) (config : Config) (db : DB)
    (input : list MetadataInProcess) : list MetadataInProcess :=
  match ColumnList (QueryContext db (columns_ColumnList e)) with
  | inr err => [with_Err err]
  | inl cols =>
      let query :=
        NewQuery cols (columns_FROM e (TargetSchemaInClause config)) in
      match Exec query db with
      | inr err => [with_Err err]
      | inl rows => correlate e config query input rows
      end
  end.

(** [Run]: the sink after the run and the error returned. *)
Definition Run {W} `{Writer W} (e : Extractor) (config : Config)
    (db : DB) (out : W) : W * option error :=
  match sql_Open db with
  | Some err => (out, Some err)
  | None =>
      let tableCh := extractTables e config db in
      let columnCh := extractColumns e config db tableCh in
      writeCSV columnCh out
  end.

End Pipeline.

(** ** Examples *)

(** A runtime for the examples: the driver hands over NULL, strings, byte
    strings, integers and booleans, and no timestamp, floating-point number
    or value of another type. *)
Definition example_runtime : GoRuntime :=
  {| Time := Empty_set;
     Time_Format := fun t _ => match t with end;
     Float := Empty_set;
     FormatFloat := fun f _ _ _ => match f with end;
     Other := Empty_set;
     Sprintf_v := fun x => match x with end |}.

(** A runtime with one timestamp, whose rendering shows the layout that
    [Format] was given; no floating-point number or value of another type. *)
Definition stamp_runtime : GoRuntime :=
  {| Time := unit;
     Time_Format := fun _ layout => "layout " +:+ layout;
     Float := Empty_set;
     FormatFloat := fun f _ _ _ => match f with end;
     Other := Empty_set;
     Sprintf_v := fun x => match x with end |}.

(** The run configuration of the repository's test. *)
Definition test_config : Config :=
  {| Hostname := "localhost"; Database := "SAMPLE"; Port := 50000;
     UserID := "db2inst1"; Password := "password"; Lang := "ja";
     Remarks := ["Alias"; "Description"]; CSVFile := "testdata/mashu.csv";
     SystemSchema := "SYSCAT"; TargetSchema := ["DB2INST1"] |}.

(** A table of the schema DB2INST1 as [toMetadata] of SYSCAT makes it. *)
Definition table (name : string) : Metadata :=
  {| Metadata_Name := name; Metadata_Alias := "";
     FormalName := "DB2INST1." +:+ name; Metadata_Description := "";
     MetaType := 1; Metadata_Lang := "ja"; Columns := [] |}.

(** The columns that the examples select from SYSCAT.COLUMNS, and a row of
    them for the column [colname] of the table [tabname]. *)
Definition example_columns : list string := ["TABSCHEMA"; "TABNAME"; "COLNAME"].

Definition example_query : Query :=
  NewQuery example_columns
    (Db2_columns_FROM (TargetSchemaInClause test_config)).

Definition column_row (tabname colname : string)
  : list (@Value example_runtime) :=
  [string_value "DB2INST1"; string_value tabname; string_value colname].

(** The column that [toColumn] of SYSCAT makes of such a row. *)
Definition column (colname : string) : Column :=
  set_Column_Name colname zero_Column.

(** ** The correlator as the specification describes it *)

Section Correlator.
Context `{GoRuntime}.

(** The column and the formal name that a row of the columns query is mapped
    to, when its scan has no error. *)
Definition column_of (e : Extractor) (config : Config) (query : Query)
    (src : list Value) : option (Column * string) :=
  match Query_Scan query src with
  | inl m => Some (toColumn e config m)
  | inr _ => None
  end.

(** The column sequence: the columns with the key of their table. *)
Definition column_sequence (e : Extractor) (config : Config) (query : Query)
    (rows : list (list Value)) : list (Column * string) :=
  omap (column_of e config query) rows.

(** The columns of the column sequence whose key is [key], in order. *)
Definition columns_with_key (key : string) (cols : list (Column * string))
  : list Column :=
  fst <$> filter (fun ck => snd ck = key) cols.

(** One Metadata per table of the table sequence, in the order of the table
    sequence, with the columns of its key; a table with no column has an
    empty column sequence. *)
Definition one_per_table (tables : list Metadata)
    (cols : list (Column * string)) : list Metadata :=
  (fun t => set_Columns (Columns t ++ columns_with_key (FormalName t) cols) t)
    <$> tables.

(** The correlator emits exactly what [one_per_table] describes. *)
Definition emits_one_per_table (e : Extractor) (config : Config)
    (query : Query) (tables : list Metadata) (rows : list (list Value))
  : Prop :=
  correlate e config query (with_Data <$> tables) rows
  = with_Data <$> one_per_table tables (column_sequence e config query rows).

(** A sequence of keys in the order of the catalog queries. *)
Definition ordered (keys : list string) : Prop := Sorted String.le keys.

(** The Metadata of the envelopes of a stream that carry no error. *)
Definition sent (out : list MetadataInProcess) : list Metadata :=
  Data <$> filter (fun mip => Err mip = None) out.

(** The [k]-th value received from the table channel (from 0), the zero value
    once the channel is closed, and the first [k] of them. *)
Definition nth_received (tables : list MetadataInProcess) (k : nat)
  : MetadataInProcess :=
  nth k tables zero_MetadataInProcess.

Definition received (tables : list MetadataInProcess) (k : nat)
  : list Metadata :=
  (fun i => Data (nth_received tables i)) <$> seq 0 k.

(** A table without the columns appended to it. *)
Definition table_of (m : Metadata) : Metadata := set_Columns [] m.

(** What the loop of [extractColumns] keeps true of its variables: [k]
    tables have been received, and they are, in order and one each, the
    tables sent without error so far and then the table held. *)
Definition correlated (tables : list MetadataInProcess) (st : LoopState)
  : Prop :=
  exists k : nat,
    input st = drop k tables
    /\ table_of <$> (sent (output st) ++ option_list (meta st))
       = table_of <$> received tables k.

(** The columns that the rows of a table are mapped to. *)
Definition columns_of (e : Extractor) (config : Config) (query : Query)
    (rows : list (list Value)) : list Column :=
  fst <$> column_sequence e config query rows.

(** A table with the rows of its columns, and the Metadata the specification
    expects for it. *)
Definition Group : Type := Metadata * list (list Value).

Definition complete (e : Extractor) (config : Config) (query : Query)
    (g : Group) : Metadata :=
  set_Columns (Columns (fst g) ++ columns_of e config query (snd g)) (fst g).

(** Every row of the group scans and is mapped to the key of the table of the
    group, and there is at least one. *)
Definition has_its_columns (e : Extractor) (config : Config) (query : Query)
    (g : Group) : Prop :=
  snd g <> []
  /\ Forall (fun src => exists c,
                column_of e config query src = Some (c, FormalName (fst g)))
            (snd g).

(** The table that comes last, when it is not the only one, has two rows of
    columns or more. *)
Definition last_has_two (groups : list Group) : Prop :=
  (length groups <= 1)%nat
  \/ exists g, last groups = Some g /\ (2 <= length (snd g))%nat.

(** Groups in a row: each has its columns, and its key is not that of the
    group before it, [prev] for the first. *)
Fixpoint chained (e : Extractor) (config : Config) (query : Query)
    (prev : string) (groups : list Group) : Prop :=
  match groups with
  | [] => True
  | g :: groups' =>
      FormalName (fst g) <> prev
      /\ has_its_columns e config query g
      /\ chained e config query (FormalName (fst g)) groups'
  end.

(** Every row of the group scans and is mapped to the key of the table of the
    group; there may be none. *)
Definition rows_of_its_key (e : Extractor) (config : Config) (query : Query)
    (g : Group) : Prop :=
  Forall (fun src => exists c,
             column_of e config query src = Some (c, FormalName (fst g)))
         (snd g).

(** Every table after the first has a row of columns, and so has a table
    that is the only one. *)
Definition columns_after_first (groups : list Group) : Prop :=
  match groups with
  | [] => True
  | [g] => snd g <> []
  | _ :: groups' => Forall (fun g => snd g <> []) groups'
  end.

(** Every Metadata after the first has a column. *)
Definition later_have_columns (ms : list Metadata) : Prop :=
  Forall (fun m => Columns m <> []) (tail ms).

(** What the loop of [extractColumns] keeps true of the column carried over:
    while [col] is nil no table is held and nothing has been sent, and from
    then on every table sent or held after the first has a column. *)
Definition carrying (st : LoopState) : Prop :=
  match col st with
  | None => meta st = None /\ output st = []
  | Some _ =>
      later_have_columns (sent (output st) ++ option_list (meta st))
  end.

End Correlator.

(** The tables and the column rows of the example of the specification:
    [(k1,meta1),(k2,meta2)] and [(k1,colA),(k1,colB),(k2,colC)]. *)
Definition example_tables : list Metadata := [table "T1"; table "T2"].

Definition example_rows : list (list (@Value example_runtime)) :=
  [column_row "T1" "A"; column_row "T1" "B"; column_row "T2" "C"].

(** Three tables of which the second has no column. *)
Definition sparse_tables : list Metadata :=
  [table "T1"; table "T2"; table "T3"].

Definition sparse_rows : list (list (@Value example_runtime)) :=
  [column_row "T1" "A"; column_row "T3" "C"; column_row "T3" "D"].

(** The rows of two tables with two columns each. *)
Definition full_rows : list (list (@Value example_runtime)) :=
  [column_row "T1" "A"; column_row "T1" "B"; column_row "T2" "C";
   column_row "T2" "D"].

(** A row of a SYSCAT.TABLES with remarks, and the same table in the
    catalogs SYSIBM and QSYS2. *)
Definition remarked_row (d : Dialect) : gmap string string :=
  match d with
  | SYSCAT =>
      {[ "TABSCHEMA" := "DB2INST1"; "TABNAME" := "EMP";
         "REMARKS" := "Employees" ]}
  | SYSIBM =>
      {[ "CREATOR" := "DB2INST1"; "NAME" := "EMP";
         "REMARKS" := "Employees" ]}
  | QSYS2 =>
      {[ "TABLE_OWNER" := "DB2INST1"; "TABLE_NAME" := "EMP";
         "LONG_COMMENT" := "Employees" ]}
  end.

(** A database that fails every query, as when the server cannot be
    reached after [sql.Open]. *)
Definition unreachable : @DB example_runtime :=
  {| sql_Open := None; QueryContext := fun _ => inr "SQL30081N" |}.

(** A database on which the catalog view of the columns can be read and the
    one of the tables cannot: the columns query has the rows of two tables. *)
Definition tables_denied : @DB example_runtime :=
  {| sql_Open := None;
     QueryContext := fun q =>
       if decide (q = Db2_columns_ColumnList)
       then inl ((fun name => [string_value name]) <$> example_columns)
       else if decide (q = Stmt example_query)
       then inl full_rows
       else inr "SQL0551N" |}.

(** Three tables with columns, of which the second has one. *)
Definition three_groups : list (@Group example_runtime) :=
  [(table "T1", [column_row "T1" "A"; column_row "T1" "B"]);
   (table "T2", [column_row "T2" "C"]);
   (table "T3", [column_row "T3" "D"; column_row "T3" "E"])].

(** The remark routing of the run configuration: the value of the remarks
    field when [field] is among [Remarks], else nothing. *)
Definition routed (config : Config) (field : string) (v : string) : string :=
  if decide (field ∈ Remarks config) then v else "".

(** ** The catalog fields that the mappers read *)

(** The fields of a row of the tables view: the name of the table and its
    schema. *)
Definition table_name_field (d : Dialect) : string :=
  match d with
  | SYSCAT => "TABNAME"
  | SYSIBM => "NAME"
  | QSYS2 => "TABLE_NAME"
  end.

Definition table_schema_field (d : Dialect) : string :=
  match d with
  | SYSCAT => "TABSCHEMA"
  | SYSIBM => "CREATOR"
  | QSYS2 => "TABLE_OWNER"
  end.

(** The fields of a row of the columns view: the table of the column and
    its schema, the position of the column, its nullability flag, its
    remarks, and its heading (the SYSCAT mapper reads none). *)
Definition column_table_field (d : Dialect) : string :=
  match d with
  | SYSCAT => "TABNAME"
  | SYSIBM => "TBNAME"
  | QSYS2 => "TABLE_NAME"
  end.

Definition column_schema_field (d : Dialect) : string :=
  match d with
  | SYSCAT => "TABSCHEMA"
  | SYSIBM => "TBCREATOR"
  | QSYS2 => "TABLE_OWNER"
  end.

Definition column_order_field (d : Dialect) : string :=
  match d with
  | SYSCAT => "COLNO"
  | SYSIBM => "COLNO"
  | QSYS2 => "ORDINAL_POSITION"
  end.

Definition column_nullable_field (d : Dialect) : string :=
  match d with
  | SYSCAT => "NULLS"
  | SYSIBM => "NULLS"
  | QSYS2 => "IS_NULLABLE"
  end.

Definition column_remarks_field (d : Dialect) : string :=
  match d with
  | SYSCAT => "REMARKS"
  | SYSIBM => "REMARKS"
  | QSYS2 => "COLUMN_TEXT"
  end.

Definition column_heading_field (d : Dialect) : option string :=
  match d with
  | SYSCAT => None
  | SYSIBM => Some "LABEL"
  | QSYS2 => Some "COLUMN_HEADING"
  end.

(** The heading of a column row, when the mapper of the catalog reads one
    and the row has it. *)
Definition column_heading (d : Dialect) (m : gmap string string)
  : option string :=
  column_heading_field d ≫= fun field => m !! field.

(** The names under which the three extractors are registered. *)
Definition registered_name (d : Dialect) : string :=
  Db2Driver +:+ "." +:+ system_schema d.

(** A sink with room for the record group of one table and not of two. *)
Definition small_disk : LimitedWriter := {| written := ""; room := 100 |}.

(** The key type that the column mapper of a catalog reads from a row: a
    primary key with its position from a KEYSEQ that is a number (SYSCAT,
    SYSIBM), or with position 0 from an IS_IDENTITY that is YES (QSYS2). *)
Definition row_KeyType (d : Dialect) (m : gmap string string) : KeyType :=
  match d with
  | SYSCAT | SYSIBM =>
      match m !! "KEYSEQ" ≫= Atoi with
      | Some i => {| Constraint := 1; KeyType_Order := i |}
      | None => zero_KeyType
      end
  | QSYS2 =>
      match m !! "IS_IDENTITY" with
      | Some v =>
          if decide (v = "YES")
          then {| Constraint := 1; KeyType_Order := 0 |}
          else zero_KeyType
      | None => zero_KeyType
      end
  end.

(** A row of SYSCAT.COLUMNS as [Map] makes it, and of SYSIBM.SYSCOLUMNS with
    a label. *)
Definition syscat_column_row : gmap string string :=
  {[ "TABSCHEMA" := "DB2INST1 "; "TABNAME" := "EMP"; "COLNAME" := "ID";
     "TYPENAME" := "INTEGER"; "NULLS" := "N"; "COLNO" := "0";
     "KEYSEQ" := "1"; "REMARKS" := "Employee number" ]}.

Definition syscat_table_row : gmap string string :=
  {[ "TABSCHEMA" := "DB2INST1 "; "TABNAME" := "EMP" ]}.

Definition sysibm_column_row : gmap string string :=
  {[ "TBCREATOR" := "DB2INST1"; "TBNAME" := "EMP"; "NAME" := "ID";
     "COLTYPE" := "INTEGER "; "NULLS" := "N"; "COLNO" := "x";
     "REMARKS" := "Employee number"; "LABEL" := "Number" ]}.

(** ** Counting bytes *)

(** The number of occurrences of the byte [c] in [s]. *)
Fixpoint occurrences (c : ascii) (s : string) : nat :=
  match s with
  | "" => 0
  | String x s' => (if Ascii.eqb x c then 1 else 0) + occurrences c s'
  end.

(** The free-text fields of a Metadata and of a Column that [ToCSVString]
    writes. *)
Definition Metadata_texts (m : Metadata) : list string :=
  [FormalName m; Metadata_Alias m; Metadata_Description m; Metadata_Lang m].

Definition Column_texts (c : Column) : list string :=
  [Column_Name c; Column_Alias c; Column_Description c; Column_Type c].

(** The occurrences of [c] in the texts of a Metadata and of its columns. *)
Definition occurrences_in_texts (c : ascii) (m : Metadata) : nat :=
  sum_list (occurrences c <$> Metadata_texts m)
  + sum_list ((fun col => sum_list (occurrences c <$> Column_texts col))
                <$> Columns m).

(** Three tables of which the first has no column. *)
Definition leading_empty_groups : list (@Group example_runtime) :=
  [(table "T1", []);
   (table "T2", [column_row "T2" "C"]);
   (table "T3", [column_row "T3" "D"; column_row "T3" "E"])].

(** Four tables with columns, of which the last has one. *)
Definition short_tail_groups : list (@Group example_runtime) :=
  [(table "T1", [column_row "T1" "A"; column_row "T1" "B"]);
   (table "T2", [column_row "T2" "C"]);
   (table "T3", [column_row "T3" "D"; column_row "T3" "E"]);
   (table "T4", [column_row "T4" "F"])].
(** ** Serialization *)

Lemma append_cons (x : ascii) (a b : string) :
  String x a +:+ b = String x (a +:+ b).
Proof. reflexivity. Qed.

Lemma append_nil_l (a : string) : "" +:+ a = a.
Proof. reflexivity. Qed.

Lemma append_assoc (a b c : string) : (a +:+ b) +:+ c = a +:+ (b +:+ c).
Proof.
  induction a as [|x a IH]; [done |]. by rewrite !append_cons, IH.
Qed.

Lemma append_nil_r (a : string) : a +:+ "" = a.
Proof. induction a as [|x a IH]; [done |]. by rewrite append_cons, IH. Qed.

Lemma foldl_write_column (cs : list Column) (buf : Builder) :
  foldl write_column buf cs
  = buf +:+ unlines (map column_record cs).
Proof.
  revert buf. induction cs as [|c cs IH]; intros buf; simpl.
  - by rewrite append_nil_r.
  - rewrite IH. unfold write_column, WriteString, Sprintf_30, column_record,
      record. simpl Join. by rewrite !append_assoc.
Qed.

Lemma unlines_app (xs ys : list string) :
  unlines (xs ++ ys) = unlines xs +:+ unlines ys.
Proof.
  induction xs as [|x xs IH]; simpl; [done |].
  by rewrite IH, !append_assoc.
Qed.

(** C9. The example Metadata of the specification serializes to the three
    lines [20,,DB2INST1.EMP,,,ja,Table], [30,,ID,,,INTEGER,Required,Primary]
    and a blank line, in that order; and every Metadata serializes to its
    table record, one column record per column in column order, and a
    terminating blank line. *)
Theorem ToCSVString_record_group :
  ToCSVString emp
  = unlines ["20,,DB2INST1.EMP,,,ja,Table";
             "30,,ID,,,INTEGER,Required,Primary";
             ""]
  /\ forall m : Metadata,
       ToCSVString m = unlines (record_group m)
       /\ record_group m
          = table_record m :: map column_record (Columns m) ++ [""]
       /\ table_record m
          = "20,," +:+ FormalName m +:+ "," +:+ Metadata_Alias m +:+ ","
             +:+ Metadata_Description m +:+ "," +:+ Metadata_Lang m +:+ ","
             +:+ MetaTypeName m
       /\ forall c : Column,
            column_record c
            = "30,," +:+ Column_Name c +:+ "," +:+ Column_Alias c +:+ ","
               +:+ Column_Description c +:+ "," +:+ Column_Type c +:+ ","
               +:+ ModeName c +:+ ","
               +:+ ConstraintName (Column_KeyType c).
Proof.
  split; [reflexivity |].
  intros m. repeat split.
  unfold ToCSVString, record_group, WriteString.
  rewrite foldl_write_column. simpl unlines at 2.
  rewrite unlines_app. unfold Sprintf_20, table_record, record.
  simpl Join. simpl unlines. by rewrite !append_assoc.
Qed.

(** ** The CSV sink *)

Lemma Buffer_accepts_all : accepts_all Buffer.
Proof. by intros w p. Qed.

Lemma writeCSV_accepts_all {W} `{Writer W} (input : list MetadataInProcess)
    (out : W) :
  accepts_all W -> writeCSV input out = (write_all input out, None).
Proof.
  intros Hacc. revert out.
  induction input as [|m input IH]; intros out; [done |].
  simpl. specialize (Hacc out (ToCSVString (Data m))).
  destruct (Write out (ToCSVString (Data m))) as [out' [e|]];
    simpl in *; [done | apply IH].
Qed.

Lemma write_all_app {W} `{Writer W} (xs ys : list MetadataInProcess) (out : W) :
  write_all (xs ++ ys) out = write_all ys (write_all xs out).
Proof. apply foldl_app. Qed.

(** C10. An envelope whose [Err] is not nil does not make [writeCSV] return
    that error or stop: on a sink that takes its writes, [writeCSV] writes the
    serialization of the envelope's [Data] (for an envelope built as
    [MetadataInProcess{Err: err}], the line [20,,,,,,] and a blank line),
    goes on with the envelopes that follow, and returns nil when the channel is
    closed. *)
Theorem writeCSV_ignores_Err {W} `{Writer W}
    (before after : list MetadataInProcess) (m : MetadataInProcess)
    (e : error) (out : W) :
  accepts_all W ->
  Err m = Some e ->
  writeCSV (before ++ m :: after) out
  = writeCSV after
      (fst (Write (write_all before out) (ToCSVString (Data m))))
  /\ snd (writeCSV (before ++ m :: after) out) = None
  /\ fst (writeCSV (before ++ m :: after) out)
     = write_all after
         (fst (Write (write_all before out) (ToCSVString (Data m))))
  /\ ToCSVString (Data (with_Err e)) = unlines ["20,,,,,,"; ""].
Proof.
  intros Hacc _.
  rewrite !writeCSV_accepts_all by done.
  rewrite write_all_app. by repeat split.
Qed.

Lemma writeCSV_ignores_Err_witness :
  let m := with_Err "SQL0204N" in
  writeCSV ([with_Data emp] ++ m :: [with_Data emp]) ("" : Buffer)
  = (ToCSVString emp +:+ unlines ["20,,,,,,"; ""] +:+ ToCSVString emp, None).
Proof.
  intros m.
  destruct (writeCSV_ignores_Err [with_Data emp] [with_Data emp] m
              "SQL0204N" ("" : Buffer) Buffer_accepts_all eq_refl)
    as (Heq & _).
  rewrite Heq. reflexivity.
Defined.


(** ** Decimal numerals *)

Local Open Scope Z_scope.

Lemma digit_value_digit (d : Z) :
  0 <= d < 10 -> digit_value (digit d) = Some d.
Proof.
  intros Hd.
  assert (d = 0 \/ d = 1 \/ d = 2 \/ d = 3 \/ d = 4 \/ d = 5 \/ d = 6
          \/ d = 7 \/ d = 8 \/ d = 9) as Hcases by lia.
  destruct_or!; subst d; reflexivity.
Qed.

Lemma digit_value_range (c : ascii) (d : Z) :
  digit_value c = Some d -> 0 <= d < 10.
Proof.
  unfold digit_value. intros Hc.
  destruct (48 <=? Z.of_N (N_of_ascii c)) eqn:Hlo; [|done].
  destruct (Z.of_N (N_of_ascii c) <=? 57) eqn:Hhi; [|done].
  simpl in Hc. injection Hc as <-. lia.
Qed.

Lemma digit_not_sign (d : Z) :
  0 <= d < 10 ->
  (digit d =? "-")%char = false /\ (digit d =? "+")%char = false.
Proof.
  intros Hd.
  assert (d = 0 \/ d = 1 \/ d = 2 \/ d = 3 \/ d = 4 \/ d = 5 \/ d = 6
          \/ d = 7 \/ d = 8 \/ d = 9) as Hcases by lia.
  destruct_or!; subst d; by split.
Qed.

Lemma parse_digits_app (s t : string) (n : Z) :
  parse_digits (s +:+ t) n
  = match parse_digits s n with
    | Some v => parse_digits t v
    | None => None
    end.
Proof.
  revert n. induction s as [|c s IH]; intros n; [done |].
  rewrite append_cons. simpl. destruct (digit_value c); [apply IH | done].
Qed.

(** A numeral of [k] digits that continues from [n] reads as a value
    between [n * 10^k] and [(n + 1) * 10^k]. *)
Lemma parse_digits_bounds (s : string) (n v : Z) :
  parse_digits s n = Some v ->
  n * 10 ^ Z.of_nat (String.length s) <= v
  < (n + 1) * 10 ^ Z.of_nat (String.length s).
Proof.
  revert n. induction s as [|c s IH]; intros n Hs; simpl in Hs.
  - injection Hs as <-. simpl. lia.
  - destruct (digit_value c) as [d|] eqn:Hc; [|done].
    apply digit_value_range in Hc. apply IH in Hs.
    cbn [String.length]. rewrite Nat2Z.inj_succ, Z.pow_succ_r by lia.
    assert (0 < 10 ^ Z.of_nat (String.length s)) by (apply Z.pow_pos_nonneg; lia).
    nia.
Qed.

Lemma formatBits_acc (fuel : nat) (u : Z) (a : string) :
  formatBits fuel u 10 a = formatBits fuel u 10 "" +:+ a.
Proof.
  revert u a. induction fuel as [|fuel IH]; intros u a; [done |].
  simpl. destruct (10 <=? u); [|done].
  rewrite IH, (IH _ (String _ "")), append_assoc. done.
Qed.

Lemma last_digit (u : Z) : 0 <= u -> 0 <= u - u / 10 * 10 < 10.
Proof.
  intros Hu. pose proof (Z.div_mod u 10). pose proof (Z.mod_pos_bound u 10).
  lia.
Qed.

(** The digits that [formatBits] writes read as the number formatted. *)
Lemma parse_formatBits (fuel : nat) (u : Z) :
  0 <= u < 10 ^ Z.of_nat fuel ->
  parse_digits (formatBits fuel u 10 "") 0 = Some u.
Proof.
  revert u. induction fuel as [|fuel IH]; intros u Hu.
  - simpl in *. f_equal; lia.
  - rewrite Nat2Z.inj_succ, Z.pow_succ_r in Hu by lia.
    simpl. destruct (Z.leb_spec 10 u) as [Hge|Hlt].
    + rewrite formatBits_acc, parse_digits_app.
      pose proof (last_digit u ltac:(lia)) as Hd.
      assert (0 <= u / 10 < 10 ^ Z.of_nat fuel) as Hq.
      { split; [apply Z.div_pos; lia |].
        apply Z.div_lt_upper_bound; lia. }
      rewrite (IH _ Hq). simpl. rewrite digit_value_digit by done.
      f_equal; lia.
    + simpl. rewrite digit_value_digit by lia. f_equal; lia.
Qed.

(** [formatBits] writes at most [k] digits for a number below [10^k]. *)
Lemma formatBits_length (fuel : nat) (u : Z) (k : nat) (a : string) :
  0 <= u < 10 ^ Z.of_nat k -> (1 <= k)%nat ->
  (String.length (formatBits fuel u 10 a) <= k + String.length a)%nat.
Proof.
  revert u k a. induction fuel as [|fuel IH]; intros u k a Hu Hk; simpl.
  - lia.
  - destruct (Z.leb_spec 10 u) as [Hge|Hlt]; [|simpl; lia].
    destruct k as [|[|k]]; [lia | simpl in Hu; lia |].
    rewrite Nat2Z.inj_succ, Z.pow_succ_r in Hu by lia.
    assert (0 <= u / 10 < 10 ^ Z.of_nat (S k)) as Hq.
    { split; [apply Z.div_pos; lia |].
      apply Z.div_lt_upper_bound; lia. }
    specialize (IH _ (S k) (String (digit (u - u / 10 * 10)) a) Hq
                  ltac:(lia)).
    simpl in IH. lia.
Qed.

(** The first byte that [formatBits] writes is a digit. *)
Lemma formatBits_head (fuel : nat) (u : Z) (a : string) :
  0 <= u ->
  exists d t, 0 <= d < 10 /\ formatBits (S fuel) u 10 a = String (digit d) t.
Proof.
  revert u a. induction fuel as [|fuel IH]; intros u a Hu.
  - simpl. destruct (Z.leb_spec 10 u).
    + eexists _, _. split; [apply (last_digit u Hu) | done].
    + exists u, a. split; [lia | done].
  - change (formatBits (S (S fuel)) u 10 a)
      with (if 10 <=? u
            then formatBits (S fuel) (u / 10) 10
                   (String (digit (u - u / 10 * 10)) a)
            else String (digit u) a).
    destruct (Z.leb_spec 10 u).
    + apply IH. apply Z.div_pos; lia.
    + exists u, a. split; [lia | done].
Qed.

Lemma read_decimal_digits (s : string) :
  (exists d t, 0 <= d < 10 /\ s = String (digit d) t) ->
  read_decimal s = parse_digits s 0.
Proof.
  intros (d & t & Hd & ->). unfold read_decimal.
  destruct (digit_not_sign d Hd) as [-> ->]. cbn [orb].
  by destruct (parse_digits (String (digit d) t) 0).
Qed.

Lemma pow_2_64_lt : 2 ^ 64 < 10 ^ Z.of_nat 65.
Proof. vm_compute. reflexivity. Qed.

Lemma read_decimal_minus (c : ascii) (t : string) :
  read_decimal (String "-" (String c t))
  = match parse_digits (String c t) 0 with
    | Some n => Some (- n)
    | None => None
    end.
Proof. reflexivity. Qed.

Lemma read_FormatUint (u : Z) :
  0 <= u < 2 ^ 64 -> read_decimal (FormatUint u 10) = Some u.
Proof.
  intros Hu. unfold FormatUint.
  rewrite read_decimal_digits by (apply formatBits_head; lia).
  apply parse_formatBits. pose proof pow_2_64_lt. lia.
Qed.

Lemma read_FormatInt (i : Z) :
  - 2 ^ 63 <= i < 2 ^ 64 -> read_decimal (FormatInt i 10) = Some i.
Proof.
  intros Hi. unfold FormatInt. destruct (Z.ltb_spec i 0) as [Hneg|Hpos].
  - destruct (formatBits_head 64 (- i) "" ltac:(lia)) as (d & t & Hd & Heq).
    unfold FormatUint. rewrite Heq, read_decimal_minus, <- Heq.
    rewrite parse_formatBits by (pose proof pow_2_64_lt; lia).
    f_equal; lia.
  - apply read_FormatUint. lia.
Qed.

Lemma read_decimal_cons (c : ascii) (t : string) :
  read_decimal (String c t)
  = if (c =? "-")%char
    then match t with
         | "" => None
         | _ => Z.opp <$> parse_digits t 0
         end
    else if (c =? "+")%char
    then match t with
         | "" => None
         | _ => parse_digits t 0
         end
    else parse_digits (String c t) 0.
Proof.
  unfold read_decimal.
  destruct (c =? "-")%char, (c =? "+")%char; cbn [orb];
    try (destruct t as [|c' t']; [done |]);
    match goal with
    | |- context [parse_digits ?s 0] => by destruct (parse_digits s 0)
    end.
Qed.

(** A numeral is at least as long as what [FormatInt] writes for its
    value. *)
Lemma read_decimal_length (s : string) (i : Z) :
  read_decimal s = Some i ->
  (String.length (FormatInt i 10) <= String.length s)%nat.
Proof.
  intros Hs.
  assert (forall (body : string) (n : Z),
            body <> "" -> parse_digits body 0 = Some n ->
            0 <= n
            /\ (String.length (FormatUint n 10) <= String.length body)%nat)
    as Hbody.
  { intros body n Hne Hb. apply parse_digits_bounds in Hb.
    split; [lia |]. unfold FormatUint.
    pose proof (formatBits_length 65 n (String.length body) "") as Hlen.
    cbn [String.length] in Hlen. rewrite Nat.add_0_r in Hlen.
    apply Hlen; [lia |]. destruct body; [done | cbn [String.length]; lia]. }
  destruct s as [|c t]; [done |].
  rewrite read_decimal_cons in Hs.
  destruct (c =? "-")%char; [|destruct (c =? "+")%char].
  - destruct t as [|c' t']; [done |].
    destruct (parse_digits (String c' t') 0) as [n|] eqn:Hp;
      [|discriminate Hs].
    injection Hs as <-.
    destruct (Hbody (String c' t') n ltac:(done) Hp) as [Hn Hlen].
    unfold FormatInt. destruct (Z.ltb_spec (- n) 0).
    + rewrite Z.opp_involutive. cbn [String.length] in *. lia.
    + assert (n = 0) as -> by lia. change (- 0) with 0.
      cbn [String.length] in *. lia.
  - destruct t as [|c' t']; [done |].
    destruct (Hbody (String c' t') i ltac:(done) Hs) as [Hn Hlen].
    unfold FormatInt. destruct (Z.ltb_spec i 0); [lia |].
    cbn [String.length] in *. lia.
  - destruct (Hbody (String c t) i ltac:(done) Hs) as [Hn Hlen].
    unfold FormatInt. destruct (Z.ltb_spec i 0); [lia | done].
Qed.

Lemma FormatInt_minimal (i : Z) :
  - 2 ^ 63 <= i < 2 ^ 64 -> minimal_decimal i (FormatInt i 10).
Proof.
  intros Hi. split; [by apply read_FormatInt |].
  intros s'. apply read_decimal_length.
Qed.

Lemma FormatUint_FormatInt (u : Z) : 0 <= u -> FormatUint u 10 = FormatInt u 10.
Proof. intros Hu. unfold FormatInt. by destruct (Z.ltb_spec u 0); [lia |]. Qed.

(** What [strconv.Atoi] reads back from [strconv.FormatInt]. *)
Lemma Atoi_FormatInt (i : Z) :
  minInt <= i <= maxInt -> Atoi (FormatInt i 10) = Some i.
Proof.
  intros Hi. unfold Atoi, minInt, maxInt in *.
  rewrite read_FormatInt by lia.
  destruct (Z.leb_spec (- 2 ^ 63) i); [|lia].
  destruct (Z.leb_spec i (2 ^ 63 - 1)); [done | lia].
Qed.

Local Close Scope Z_scope.

(** ** The scanner and the rows *)

Section Scanner.
Context `{GoRuntime}.

(** C7. [Scan] into a destination that is not nil returns no error, and
    leaves: the empty string for NULL; a string or a byte sequence as it is;
    a timestamp as [Time.Format] renders it in the layout
    2006-01-02T15:04:05.999999999Z07:00, the layout of RFC 3339 with
    nanoseconds; for a signed or unsigned integer its minimal decimal
    representation; for a floating-point number what [strconv.FormatFloat]
    writes in format 'g' with precision -1, the shortest representation that
    reads back as the same number; "true" or "false" for a boolean; and for
    any other value what the verb %v of [fmt] prints. *)
Theorem Scan_canonical (v : ColumnValue) (value : Value) :
  snd (Scan (Some v) value) = None
  /\ match value with
     | nil_value => fst (Scan (Some v) value) = Some ""
     | string_value src => fst (Scan (Some v) value) = Some src
     | bytes_value src => fst (Scan (Some v) value) = Some src
     | Time_value src =>
         fst (Scan (Some v) value)
         = Some (Time_Format src "2006-01-02T15:04:05.999999999Z07:00")
     | Int_value _ i =>
         exists s, fst (Scan (Some v) value) = Some s
                   /\ ((- 2 ^ 63 <= i < 2 ^ 63)%Z -> minimal_decimal i s)
     | Uint_value _ u =>
         exists s, fst (Scan (Some v) value) = Some s
                   /\ ((0 <= u < 2 ^ 64)%Z -> minimal_decimal u s)
     | Float_value Float64 f =>
         fst (Scan (Some v) value) = Some (FormatFloat f "g" (-1) 64)
     | Float_value Float32 f =>
         fst (Scan (Some v) value) = Some (FormatFloat f "g" (-1) 32)
     | Bool_value b =>
         fst (Scan (Some v) value) = Some (if b then "true" else "false")
     | Other_value x => fst (Scan (Some v) value) = Some (Sprintf_v x)
     end.
Proof.
  split; [by destruct value as [| | | | | |[]| |] |].
  destruct value as [| | | |k i|k u|[] f|b|]; try done.
  - eexists. split; [done |]. intros Hi. apply FormatInt_minimal. lia.
  - eexists. split; [done |]. intros Hu. cbn [Scan fst].
    rewrite FormatUint_FormatInt by lia. apply FormatInt_minimal. lia.
Qed.

(** The string that [Scan] leaves is never missing. *)
Lemma scanned_Scan (old : ColumnValue) (value : Value) :
  Scan (Some old) value = (Some (scanned old value), None).
Proof. unfold scanned. by destruct value as [| | | | | |[]| |]. Qed.

Lemma scanned_old (old old' : ColumnValue) (value : Value) :
  scanned old value = scanned old' value.
Proof. unfold scanned. by destruct value as [| | | | | |[]| |]. Qed.

(** *** Row.Map *)

Lemma Map_loop_notin (name : string) (ns : list string) (i : nat)
    (vs : list ColumnValue) (m : gmap string string) :
  name ∉ ns -> Map_loop i ns vs m !! name = m !! name.
Proof.
  revert i m. induction ns as [|n ns IH]; intros i m Hnotin; [done |].
  apply not_elem_of_cons in Hnotin as [Hne Hnotin].
  cbn [Map_loop]. rewrite IH by done.
  destruct (vs !! i) as [v|]; [|done].
  destruct (decide (v = "")); [done |]. by rewrite lookup_insert_ne.
Qed.

(** With distinct names, the map holds the name at index [j] if and only if
    its value is not empty, and then with that value. *)
Lemma Map_loop_lookup (ns : list string) (i j : nat) (vs : list ColumnValue)
    (m : gmap string string) (name : string) (v : ColumnValue) :
  NoDup ns -> ns !! j = Some name -> vs !! (i + j)%nat = Some v ->
  Map_loop i ns vs m !! name
  = if decide (v = "") then m !! name else Some v.
Proof.
  revert i j m. induction ns as [|n ns IH]; intros i j m Hnd Hj Hv; [done |].
  apply NoDup_cons in Hnd as [Hnotin Hnd].
  destruct j as [|j]; simpl in Hj.
  - injection Hj as ->. rewrite Nat.add_0_r in Hv. cbn [Map_loop].
    rewrite Map_loop_notin by done. rewrite Hv.
    destruct (decide (v = "")); [done |]. by rewrite lookup_insert_eq.
  - assert (n <> name) as Hne.
    { intros ->. apply Hnotin. by eapply list_elem_of_lookup_2. }
    cbn [Map_loop].
    rewrite (IH (S i) j) by (done || by rewrite Nat.add_succ_comm).
    destruct (vs !! i) as [w|]; [|done].
    destruct (decide (w = "")); [done |]. by rewrite lookup_insert_ne.
Qed.

(** C8. For the row that the Catalog Row Stream makes of the values of a
    result row, with the resolved column names distinct as the columns of a
    catalog view are: a resolved name is a key of the map if and only if the
    canonical string of its value is not empty, the key then holds that
    string, and a name whose value is canonically empty (NULL among them) is
    absent. *)
Theorem Query_Scan_omits_empty (columns : list string) (stmt : string)
    (src : list Value) (i : nat) (name : string) (value : Value) :
  NoDup columns ->
  length src = length columns ->
  columns !! i = Some name ->
  src !! i = Some value ->
  exists m : gmap string string,
    Query_Scan (NewQuery columns stmt) src = inl m
    /\ (is_Some (m !! name) <-> scanned "" value <> "")
    /\ (scanned "" value <> "" -> m !! name = Some (scanned "" value))
    /\ (scanned "" value = "" -> m !! name = None)
    /\ (value = nil_value -> m !! name = None).
Proof.
  intros Hnd Hlen Hname Hvalue.
  unfold Query_Scan, Rows_Scan, NewQuery, NewRow. simpl.
  rewrite length_replicate.
  destruct (decide (length src = length columns)); [|done].
  eexists. split; [done |]. unfold Map. simpl.
  assert (zip_with scanned (replicate (length columns) "") src !! (0 + i)%nat
          = Some (scanned "" value)) as Hv.
  { simpl. rewrite lookup_zip_with, lookup_replicate_2, Hvalue.
    - done.
    - by eapply lookup_lt_Some. }
  rewrite (Map_loop_lookup _ 0 i _ _ name _ Hnd Hname Hv).
  rewrite lookup_empty.
  destruct (decide (scanned "" value = "")) as [Heq|Hne].
  - repeat split; try done; by intros [? ?].
  - repeat split; try done. intros ->. by destruct Hne.
Qed.

End Scanner.

(** A signed and an unsigned integer scan to their decimal numerals, the
    largest [uint64] with its twenty digits, and the timestamp of
    [stamp_runtime] is rendered in the layout of RFC 3339 with
    nanoseconds. *)
Lemma Scan_canonical_witness :
  minimal_decimal (-42) "-42"
  /\ minimal_decimal 18446744073709551615 "18446744073709551615"
  /\ fst (Scan (Some "old") (@Time_value stamp_runtime tt))
     = Some "layout 2006-01-02T15:04:05.999999999Z07:00".
Proof.
  split_and!.
  - destruct (Scan_canonical (H := example_runtime) "old"
                (Int_value Int64 (-42))) as [_ (s & Hs & Hmin)].
    injection Hs as <-. apply Hmin. vm_compute. by split.
  - destruct (Scan_canonical (H := example_runtime) "old"
                (Uint_value Uint64 18446744073709551615))
      as [_ (s & Hs & Hmin)].
    injection Hs as <-. apply Hmin. vm_compute. by split.
  - destruct (Scan_canonical "old" (@Time_value stamp_runtime tt))
      as [_ Hs].
    exact Hs.
Defined.

Lemma Query_Scan_omits_empty_witness :
  exists m : gmap string string,
    Query_Scan (H := example_runtime) example_query
      [string_value "DB2INST1"; nil_value; string_value "ID"] = inl m
    /\ m !! "TABNAME" = None.
Proof.
  destruct (Query_Scan_omits_empty (H := example_runtime) example_columns
              (Db2_columns_FROM (TargetSchemaInClause test_config))
              [string_value "DB2INST1"; nil_value; string_value "ID"]
              1 "TABNAME" nil_value)
    as (m & Hm & _ & _ & _ & Hnil).
  - apply (bool_decide_unpack _). vm_compute. exact I.
  - reflexivity.
  - reflexivity.
  - reflexivity.
  - exists m. split; [exact Hm | by apply Hnil].
Defined.

(** ** The table mappers *)

Lemma foldl_remark_Metadata (v : string) (rs : list string) (meta : Metadata) :
  let meta' := foldl (remark_Metadata v) meta rs in
  Metadata_Alias meta'
  = (if decide ("Alias" ∈ rs) then v else Metadata_Alias meta)
  /\ Metadata_Description meta'
     = (if decide ("Description" ∈ rs) then v else Metadata_Description meta)
  /\ Metadata_Name meta' = Metadata_Name meta
  /\ FormalName meta' = FormalName meta
  /\ MetaType meta' = MetaType meta
  /\ Metadata_Lang meta' = Metadata_Lang meta
  /\ Columns meta' = Columns meta.
Proof.
  assert (forall (field r : string) (l : list string) (x y : string),
            r <> field ->
            (if decide (field ∈ r :: l) then x else y)
            = (if decide (field ∈ l) then x else y)) as Hother.
  { intros field r l x y Hne. destruct (decide (field ∈ l)) as [Hin|Hnin].
    - by rewrite decide_True by (by apply list_elem_of_further).
    - rewrite decide_False; [done |].
      intros [Heq|Hin]%elem_of_cons; [by subst | by apply Hnin]. }
  revert meta. induction rs as [|r rs IH]; intros meta; cbn [foldl].
  - rewrite !decide_False by apply not_elem_of_nil. done.
  - destruct (IH (remark_Metadata v meta r))
      as (-> & -> & -> & -> & -> & -> & ->).
    unfold remark_Metadata.
    destruct (decide (r = "Alias")) as [->|Ha].
    + rewrite (decide_True (P := "Alias" ∈ "Alias" :: rs))
        by apply list_elem_of_here.
      rewrite (Hother "Description" "Alias") by done.
      split_and!; try done. by destruct (decide ("Alias" ∈ rs)).
    + rewrite (Hother "Alias" r) by done.
      destruct (decide (r = "Description")) as [->|Hd].
      * rewrite (decide_True (P := "Description" ∈ "Description" :: rs))
          by apply list_elem_of_here.
        split_and!; try done. by destruct (decide ("Description" ∈ rs)).
      * rewrite (Hother "Description" r) by done. by split_and!.
Qed.

(** The mappers of SYSIBM and QSYS2 route the remarks of a table as the run
    configuration says. *)
Lemma toMetadata_routes_remarks (d : Dialect) (config : Config)
    (m : gmap string string) (v : string) :
  d <> SYSCAT ->
  m !! table_remarks_field d = Some v ->
  Metadata_Alias (toMetadata (extractor_of d) config m)
  = routed config "Alias" v
  /\ Metadata_Description (toMetadata (extractor_of d) config m)
     = routed config "Description" v.
Proof.
  intros Hd Hv. unfold routed.
  destruct d; [done | |]; simpl in *;
    unfold ZDb2_toMetadata, IDb2_toMetadata; rewrite Hv;
    match goal with
    | |- context [foldl (remark_Metadata v) ?meta ?rs] =>
        destruct (foldl_remark_Metadata v rs meta) as (-> & -> & _)
    end;
    repeat case_match; simpl; done.
Qed.

(** C6. The table mapper of SYSCAT leaves Alias and Description empty for
    a row with remarks, under a run configuration that routes the remarks to
    both; the mappers of SYSIBM and QSYS2 set both. *)
Theorem Db2_toMetadata_ignores_remarks :
  Remarks test_config = ["Alias"; "Description"]
  /\ remarked_row SYSCAT !! table_remarks_field SYSCAT = Some "Employees"
  /\ toMetadata (extractor_of SYSCAT) test_config (remarked_row SYSCAT)
     = table "EMP"
  /\ Metadata_Alias
       (toMetadata (extractor_of SYSCAT) test_config (remarked_row SYSCAT))
     <> routed test_config "Alias" "Employees"
  /\ Metadata_Description
       (toMetadata (extractor_of SYSCAT) test_config (remarked_row SYSCAT))
     <> routed test_config "Description" "Employees"
  /\ forall d, d <> SYSCAT ->
       toMetadata (extractor_of d) test_config (remarked_row d)
       = set_Metadata_Description "Employees"
           (set_Metadata_Alias "Employees" (table "EMP")).
Proof.
  split_and!.
  - reflexivity.
  - by vm_compute.
  - by vm_compute.
  - intros Heq. vm_compute in Heq. discriminate Heq.
  - intros Heq. vm_compute in Heq. discriminate Heq.
  - intros [] Hd; [done | |]; by vm_compute.
Qed.

(** ** The correlator *)

Section CorrelatorProofs.
Context `{GoRuntime}.
Variables (e : Extractor) (config : Config) (query : Query).

(** *** The body of the loop, case by case *)

(** With a table held, the body does not read [col] and [formalName]. *)
Lemma columns_body_held (st : LoopState) (held : Metadata) (src : list Value) :
  meta st = Some held ->
  columns_body e config query st src
  = accumulate e config held st (Query_Scan query src).
Proof.
  intros Hm. unfold columns_body, pull. rewrite Hm. cbv beta iota.
  by rewrite Hm.
Qed.

Lemma accumulate_match (st : LoopState) (held : Metadata) (src : list Value)
    (c : Column) :
  column_of e config query src = Some (c, FormalName held) ->
  accumulate e config held st (Query_Scan query src)
  = inl {| meta := Some (append_Column c held); col := Some c;
           formalName := FormalName held; input := input st;
           output := output st |}.
Proof.
  unfold column_of, accumulate. destruct (Query_Scan query src); [|done].
  intros [= ->]. cbv beta iota. by rewrite decide_True.
Qed.

Lemma accumulate_differ (st : LoopState) (held : Metadata) (src : list Value)
    (c : Column) (name : string) :
  column_of e config query src = Some (c, name) ->
  FormalName held <> name ->
  accumulate e config held st (Query_Scan query src)
  = inl {| meta := None; col := Some c; formalName := name;
           input := input st; output := output st ++ [with_Data held] |}.
Proof.
  unfold column_of, accumulate. destruct (Query_Scan query src); [|done].
  intros [= ->] Hne. cbv beta iota. by rewrite decide_False.
Qed.

Lemma accumulate_error (st : LoopState) (held : Metadata) (src : list Value) :
  column_of e config query src = None ->
  exists err,
    accumulate e config held st (Query_Scan query src)
    = inr (output st ++ [with_Err err]).
Proof.
  unfold column_of, accumulate.
  destruct (Query_Scan query src) as [m|err]; [done | by exists err].
Qed.

(** C5. When the correlator receives a table while it carries a column whose
    key differs from the formal name of the table, it sends an envelope with
    the correlation error and goes on: the column carried is appended to that
    table, and a row that follows with the key of the table is appended after
    it. *)
Theorem pull_mismatch_continues (st : LoopState) (c : Column)
    (mip : MetadataInProcess) (input' : list MetadataInProcess) :
  meta st = None ->
  col st = Some c ->
  receive (input st) = (mip, input') ->
  Err mip = None ->
  FormalName (Data mip) <> formalName st ->
  let err := with_Err (correlation_error (FormalName (Data mip))
                         (formalName st)) in
  pull st
  = inl {| meta := Some (append_Column c (Data mip)); col := Some c;
           formalName := formalName st; input := input';
           output := output st ++ [err] |}
  /\ forall (src : list Value) (c' : Column),
       column_of e config query src = Some (c', FormalName (Data mip)) ->
       columns_body e config query st src
       = inl {| meta := Some (append_Column c'
                                (append_Column c (Data mip)));
                col := Some c'; formalName := FormalName (Data mip);
                input := input'; output := output st ++ [err] |}.
Proof.
  intros Hmeta Hcol Hrecv Herr Hne err.
  assert (pull st
          = inl {| meta := Some (append_Column c (Data mip)); col := Some c;
                   formalName := formalName st; input := input';
                   output := output st ++ [err] |}) as Hpull.
  { unfold pull. rewrite Hmeta, Hrecv, Herr, Hcol. by rewrite decide_True. }
  split; [done |]. intros src c' Hsrc.
  unfold columns_body. rewrite Hpull. cbn [meta].
  by rewrite (accumulate_match _ _ _ c').
Qed.

(** *** What the loop keeps true *)

Lemma receive_drop (tables : list MetadataInProcess) (k : nat) :
  receive (drop k tables) = (nth_received tables k, drop (S k) tables).
Proof.
  unfold receive, nth_received. rewrite nth_lookup.
  destruct (tables !! k) as [mip|] eqn:Hk.
  - by rewrite (drop_S _ _ _ Hk).
  - apply lookup_ge_None in Hk. by rewrite !drop_ge by lia.
Qed.

Lemma received_S (tables : list MetadataInProcess) (k : nat) :
  received tables (S k)
  = received tables k ++ [Data (nth_received tables k)].
Proof. unfold received. by rewrite seq_S, fmap_app. Qed.

Lemma sent_app (xs ys : list MetadataInProcess) :
  sent (xs ++ ys) = sent xs ++ sent ys.
Proof. unfold sent. by rewrite filter_app, fmap_app. Qed.

Lemma sent_snoc_Data (xs : list MetadataInProcess) (m : Metadata) :
  sent (xs ++ [with_Data m]) = sent xs ++ [m].
Proof. by rewrite sent_app. Qed.

Lemma sent_snoc_Err (xs : list MetadataInProcess) (err : error) :
  sent (xs ++ [with_Err err]) = sent xs.
Proof. rewrite sent_app. apply app_nil_r. Qed.

Lemma pull_correlated (tables : list MetadataInProcess) (st st' : LoopState) :
  pull st = inl st' -> correlated tables st ->
  correlated tables st' /\ is_Some (meta st').
Proof.
  unfold pull. intros Hpull Hinv.
  destruct (meta st) as [held|] eqn:Hmeta.
  { injection Hpull as <-. by rewrite Hmeta. }
  destruct Hinv as (k & Hin & Hsent). rewrite Hmeta in Hsent.
  rewrite Hin, receive_drop in Hpull.
  destruct (Err (nth_received tables k)); [done |].
  assert (forall held out,
            table_of held = table_of (Data (nth_received tables k)) ->
            sent out = sent (output st) ->
            correlated tables
              {| meta := Some held; col := col st;
                 formalName := formalName st; input := drop (S k) tables;
                 output := out |}) as Hnext.
  { intros held out Hheld Hout. exists (S k). split; [done |].
    cbn [meta output]. simpl option_list in Hsent.
    rewrite Hout, received_S, !fmap_app.
    rewrite app_nil_r in Hsent. rewrite Hsent. f_equal. simpl.
    by rewrite Hheld. }
  destruct (col st) as [c|]; injection Hpull as <-.
  - split; [|by eexists]. apply Hnext; [done |].
    case_decide; [apply sent_snoc_Err | done].
  - split; [|by eexists]. by apply Hnext.
Qed.

Lemma accumulate_correlated (tables : list MetadataInProcess)
    (st st' : LoopState) (held : Metadata)
    (scan : gmap string string + error) :
  meta st = Some held ->
  accumulate e config held st scan = inl st' ->
  correlated tables st -> correlated tables st'.
Proof.
  unfold accumulate. intros Hmeta Hacc (k & Hin & Hsent).
  rewrite Hmeta in Hsent. destruct scan as [m|err]; [|done].
  destruct (toColumn e config m) as [c name].
  simpl option_list in Hsent.
  case_decide; injection Hacc as <-; exists k;
    cbn [meta output input]; simpl option_list.
  - split; [done |]. by rewrite <- Hsent, !fmap_app.
  - split; [done |]. by rewrite sent_snoc_Data, app_nil_r.
Qed.

Lemma columns_body_correlated (tables : list MetadataInProcess)
    (st st' : LoopState) (src : list Value) :
  columns_body e config query st src = inl st' ->
  correlated tables st -> correlated tables st'.
Proof.
  unfold columns_body. intros Hbody Hinv.
  destruct (pull st) as [st1|] eqn:Hpull; [|done].
  destruct (pull_correlated _ _ _ Hpull Hinv) as [Hinv1 [held Hheld]].
  rewrite Hheld in Hbody. by eapply accumulate_correlated.
Qed.

Lemma columns_loop_correlated (tables : list MetadataInProcess)
    (rows : list (list Value)) (st st' : LoopState) :
  columns_loop e config query st rows = inl st' ->
  correlated tables st -> correlated tables st'.
Proof.
  revert st. induction rows as [|src rows IH]; intros st Hloop Hinv.
  - by injection Hloop as <-.
  - simpl in Hloop.
    destruct (columns_body e config query st src) as [st1|] eqn:Hbody;
      [|done].
    eapply IH; [done |]. by eapply columns_body_correlated.
Qed.

Lemma start_correlated (tables : list MetadataInProcess) :
  correlated tables (start tables).
Proof. by exists 0%nat. Qed.

(** C4. When the rows of the columns query end while a table is held, that
    table is sent, last and once: the stream is what was sent during the loop
    and then the table held; the table held is the last table received, and
    the tables sent before it are, one each and in order, the tables received
    before it. *)
Theorem terminal_flush (tables : list MetadataInProcess)
    (rows : list (list Value)) (st : LoopState) (held : Metadata) :
  columns_loop e config query (start tables) rows = inl st ->
  meta st = Some held ->
  correlate e config query tables rows = output st ++ [with_Data held]
  /\ exists k : nat,
       table_of held = table_of (Data (nth_received tables k))
       /\ table_of <$> sent (output st) = table_of <$> received tables k
       /\ table_of <$> sent (correlate e config query tables rows)
          = table_of <$> received tables (S k).
Proof.
  intros Hloop Hmeta.
  assert (correlate e config query tables rows
          = output st ++ [with_Data held]) as Hflush.
  { unfold correlate. rewrite Hloop. simpl. by rewrite Hmeta. }
  split; [done |].
  destruct (columns_loop_correlated tables _ _ _ Hloop
              (start_correlated tables)) as (k & _ & Hsent).
  rewrite Hmeta in Hsent. simpl option_list in Hsent.
  destruct k as [|k].
  { rewrite fmap_app in Hsent. by destruct (table_of <$> sent (output st)). }
  rewrite received_S, !fmap_app in Hsent.
  apply app_inj_tail in Hsent as [Hbefore Hheld].
  exists k. split_and!; [done.. |].
  rewrite Hflush, sent_snoc_Data, received_S, !fmap_app, Hbefore.
  f_equal. simpl. by rewrite Hheld.
Qed.

End CorrelatorProofs.

Lemma pull_mismatch_continues_witness :
  flush (columns_body (H := example_runtime) Db2Extractor test_config
           example_query
           {| meta := None; col := Some (column "C");
              formalName := "DB2INST1.T3";
              input := [with_Data (table "T2")]; output := [] |}
           (column_row "T2" "X"))
  = [with_Err "meta.FormalName(DB2INST1.T2) != formalName(DB2INST1.T3)";
     with_Data (set_Columns [column "C"; column "X"] (table "T2"))].
Proof.
  destruct (pull_mismatch_continues (H := example_runtime) Db2Extractor
              test_config example_query
              {| meta := None; col := Some (column "C");
                 formalName := "DB2INST1.T3";
                 input := [with_Data (table "T2")]; output := [] |}
              (column "C") (with_Data (table "T2")) []
              eq_refl eq_refl eq_refl eq_refl ltac:(by vm_compute))
    as [_ Hbody].
  rewrite (Hbody (column_row "T2" "X") (column "X")) by (by vm_compute).
  by vm_compute.
Defined.

Lemma terminal_flush_witness :
  correlate (H := example_runtime) Db2Extractor test_config example_query
    (with_Data <$> example_tables) full_rows
  = [with_Data (set_Columns [column "A"; column "B"] (table "T1"));
     with_Data (set_Columns [column "C"; column "D"] (table "T2"))].
Proof.
  pose (st := {| meta := Some (set_Columns [column "C"; column "D"]
                                 (table "T2"));
                 col := Some (column "D"); formalName := "DB2INST1.T2";
                 input := [];
                 output := [with_Data (set_Columns [column "A"; column "B"]
                                         (table "T1"))] |}).
  assert (columns_loop (H := example_runtime) Db2Extractor test_config
            example_query (start (with_Data <$> example_tables)) full_rows
          = inl st) as Hloop by (vm_compute; reflexivity).
  destruct (terminal_flush Db2Extractor test_config example_query
              (with_Data <$> example_tables) full_rows st
              (set_Columns [column "C"; column "D"] (table "T2"))
              Hloop eq_refl) as [Hflush _].
  exact Hflush.
Defined.

(** *** Tables that all have columns *)

Section Groups.
Context `{GoRuntime}.
Variables (e : Extractor) (config : Config) (query : Query).

Abbreviation maps_to key :=
  (fun src => exists c, column_of e config query src = Some (c, key)).

Lemma columns_of_cons (src : list Value) (rows : list (list Value))
    (c : Column) (key : string) :
  column_of e config query src = Some (c, key) ->
  columns_of e config query (src :: rows)
  = c :: columns_of e config query rows.
Proof. intros Hsrc. unfold columns_of, column_sequence. simpl. by rewrite Hsrc. Qed.

Lemma set_Columns_append (c : Column) (held : Metadata) (cs : list Column) :
  set_Columns (Columns (append_Column c held) ++ cs) (append_Column c held)
  = set_Columns (Columns held ++ c :: cs) held.
Proof. unfold append_Column, set_Columns. simpl. by rewrite <- app_assoc. Qed.

(** With a table held, the rows of its key are appended to it. *)
Lemma columns_loop_held (rows rest : list (list Value)) (held : Metadata)
    (c0 : option Column) (f0 : string) (inp out : list MetadataInProcess) :
  Forall (maps_to (FormalName held)) rows ->
  exists c1 f1,
    columns_loop e config query
      {| meta := Some held; col := c0; formalName := f0; input := inp;
         output := out |} (rows ++ rest)
    = columns_loop e config query
        {| meta := Some (set_Columns
                           (Columns held ++ columns_of e config query rows)
                           held);
           col := c1; formalName := f1; input := inp; output := out |} rest.
Proof.
  revert held c0 f0. induction rows as [|src rows IH]; intros held c0 f0 Hrows.
  - exists c0, f0. simpl. unfold columns_of. simpl. rewrite app_nil_r.
    by destruct held.
  - apply Forall_cons in Hrows as [[c Hc] Hrows].
    destruct (IH (append_Column c held) (Some c) (FormalName held) Hrows)
      as (c1 & f1 & Heq).
    exists c1, f1. cbn [app columns_loop].
    rewrite (columns_body_held e config query _ held) by done.
    rewrite (accumulate_match e config query _ _ _ c) by done. cbn [input output].
    rewrite Heq, set_Columns_append. by rewrite (columns_of_cons _ _ c _ Hc).
Qed.

(** The body for a row, when a column is carried over and the table received
    is the one of its key: as if that table were held with the column. *)
Lemma columns_body_carry (t : Metadata) (c : Column) (src : list Value)
    (inp out : list MetadataInProcess) :
  columns_body e config query
    {| meta := None; col := Some c; formalName := FormalName t;
       input := with_Data t :: inp; output := out |} src
  = accumulate e config (append_Column c t)
      {| meta := Some (append_Column c t); col := Some c;
         formalName := FormalName t; input := inp; output := out |}
      (Query_Scan query src).
Proof.
  unfold columns_body, pull. cbn [meta input receive Err with_Data col Data].
  by rewrite decide_False by (by intros []).
Qed.

(** From a column carried over for the table [t] that comes next: [t] is
    sent with that column and the rows of its key, and every group after it
    is sent complete. *)
Lemma columns_loop_carry (groups : list Group) (t : Metadata) (c : Column)
    (rows : list (list Value)) (inp out : list MetadataInProcess) :
  Forall (maps_to (FormalName t)) rows ->
  chained e config query (FormalName t) groups ->
  (groups = [] -> rows <> []) ->
  (groups <> [] ->
   exists g, last groups = Some g /\ (2 <= length (snd g))%nat) ->
  flush (columns_loop e config query
           {| meta := None; col := Some c; formalName := FormalName t;
              input := with_Data t :: (with_Data ∘ fst <$> groups) ++ inp;
              output := out |}
           (rows ++ concat (snd <$> groups)))
  = out
    ++ with_Data (set_Columns
                    (Columns t ++ c :: columns_of e config query rows) t)
    :: (with_Data ∘ complete e config query <$> groups).
Proof.
  revert t c rows out.
  induction groups as [|[t' rows'] groups IH];
    intros t c rows out Hrows Hchain Hne Hlast.
  - (* the last table: it has a second row *)
    destruct rows as [|src rows]; [by destruct Hne |].
    apply Forall_cons in Hrows as [[c2 Hc2] Hrows].
    cbn [fmap list_fmap concat app columns_loop]. rewrite app_nil_r.
    rewrite columns_body_carry.
    rewrite (accumulate_match e config query _ _ _ c2) by done. cbn [input output].
    destruct (columns_loop_held rows [] (append_Column c2 (append_Column c t))
                (Some c2) (FormalName (append_Column c t)) inp out Hrows)
      as (c1 & f1 & Heq).
    rewrite app_nil_r in Heq. rewrite Heq. cbn [columns_loop flush meta output].
    rewrite set_Columns_append, set_Columns_append.
    by rewrite (columns_of_cons _ _ c2 _ Hc2).
  - destruct Hchain as (Hkey & [Hrows'ne Hrows'] & Hchain).
    cbn [fst snd] in *.
    destruct rows' as [|src' rows']; [done |].
    apply Forall_cons in Hrows' as [[c' Hc'] Hrows'].
    assert (flush (columns_loop e config query
                     {| meta := None; col := Some c';
                        formalName := FormalName t';
                        input := with_Data t'
                                 :: (with_Data ∘ fst <$> groups) ++ inp;
                        output := out ++ [with_Data
                          (set_Columns
                             (Columns t ++ c :: columns_of e config query rows)
                             t)] |}
                     (rows' ++ concat (snd <$> groups)))
            = (out ++ [with_Data
                         (set_Columns
                            (Columns t ++ c :: columns_of e config query rows)
                            t)])
              ++ with_Data (set_Columns
                              (Columns t'
                               ++ c' :: columns_of e config query rows') t')
              :: (with_Data ∘ complete e config query <$> groups)) as Hnext.
    { apply IH; [done | done | |].
      - intros ->. destruct (Hlast ltac:(done)) as (g & Hg & Htwo).
        injection Hg as <-. intros ->. simpl in Htwo. lia.
      - intros Hgroups. destruct (Hlast ltac:(done)) as (g & Hg & Htwo).
        exists g. split; [|done].
        destruct groups; [done | by rewrite last_cons_cons in Hg]. }
    assert (complete e config query (t', src' :: rows')
            = set_Columns
                (Columns t' ++ c' :: columns_of e config query rows') t')
      as Hcomplete.
    { unfold complete. cbn [fst snd].
      by rewrite (columns_of_cons _ _ c' _ Hc'). }
    cbn [fmap list_fmap concat compose fst snd]. rewrite Hcomplete.
    rewrite <- app_assoc in Hnext. cbn [app] in Hnext. rewrite <- Hnext.
    f_equal. clear Hnext IH.
    destruct rows as [|src rows].
    + (* no second row: the first row of the next table sends [t] *)
      cbn [app columns_loop]. rewrite columns_body_carry.
      rewrite (accumulate_differ e config query _ _ _ c' (FormalName t')) by done.
      cbn [input output]. reflexivity.
    + apply Forall_cons in Hrows as [[c2 Hc2] Hrows].
      cbn [app columns_loop].
      rewrite columns_body_carry.
      rewrite (accumulate_match e config query _ _ _ c2) by done. cbn [input output].
      destruct (columns_loop_held rows
                  (src' :: rows' ++ concat (snd <$> groups))
                  (append_Column c2 (append_Column c t))
                  (Some c2) (FormalName (append_Column c t))
                  (with_Data t' :: (with_Data ∘ fst <$> groups) ++ inp)
                  out Hrows) as (c1 & f1 & Heq).
      rewrite Heq. cbn [columns_loop].
      erewrite (columns_body_held e config query) by reflexivity.
      rewrite (accumulate_differ e config query _ _ _ c' (FormalName t')) by done.
      cbn [input output].
      rewrite set_Columns_append, set_Columns_append.
      by rewrite (columns_of_cons _ _ c2 _ Hc2).
Qed.

Lemma chained_NoDup (prev : string) (groups : list Group) :
  NoDup (prev :: (FormalName ∘ fst <$> groups)) ->
  Forall (has_its_columns e config query) groups ->
  chained e config query prev groups.
Proof.
  revert prev. induction groups as [|g groups IH]; intros prev Hnd Hall;
    [done |].
  apply Forall_cons in Hall as [Hg Hall].
  apply NoDup_cons in Hnd as [Hprev Hnd]. cbn [chained].
  split_and!; [|done|by apply IH].
  intros Heq. apply Hprev. rewrite <- Heq. cbn [fmap list_fmap compose].
  apply list_elem_of_here.
Qed.

(** The stream for tables that all have columns, the last one two or more
    when it is not the only one: every table is sent complete, in order. *)
Lemma correlate_groups (groups : list Group) :
  NoDup (FormalName ∘ fst <$> groups) ->
  Forall (has_its_columns e config query) groups ->
  last_has_two groups ->
  correlate e config query (with_Data ∘ fst <$> groups)
    (concat (snd <$> groups))
  = with_Data ∘ complete e config query <$> groups.
Proof.
  intros Hnd Hall Hlast.
  destruct groups as [|[t rows] groups]; [done |].
  pose proof (chained_NoDup _ _ Hnd
                (proj2 (proj1 (Forall_cons _ _ _) Hall))) as Hchain.
  apply Forall_cons in Hall as [[Hne Hrows] Hall]. cbn [fst snd] in *.
  destruct rows as [|src rows]; [done |].
  apply Forall_cons in Hrows as [[c Hc] Hrows].
  unfold correlate, start.
  cbn [fmap list_fmap concat compose fst snd app columns_loop].
  unfold columns_body at 1, pull.
  cbn [meta input receive Err with_Data col Data].
  rewrite (accumulate_match e config query _ _ _ c) by done.
  cbn [input output].
  assert (complete e config query (t, src :: rows)
          = set_Columns (Columns (append_Column c t)
                         ++ columns_of e config query rows)
              (append_Column c t)) as ->.
  { unfold complete. cbn [fst snd].
    by rewrite (columns_of_cons _ _ c _ Hc), set_Columns_append. }
  destruct groups as [|[t' rows'] groups].
  - destruct (columns_loop_held rows [] (append_Column c t) (Some c)
                (FormalName t) [] [] Hrows) as (c1 & f1 & Heq).
    cbn [fmap list_fmap concat]. rewrite Heq. reflexivity.
  - destruct Hchain as (Hkey & [Hne' Hrows'] & Hchain). cbn [fst snd] in *.
    destruct rows' as [|src' rows']; [done |].
    apply Forall_cons in Hrows' as [[c' Hc'] Hrows'].
    cbn [fmap list_fmap concat compose fst snd app].
    destruct (columns_loop_held rows
                (src' :: rows' ++ concat (snd <$> groups))
                (append_Column c t) (Some c) (FormalName t)
                (with_Data t' :: (with_Data ∘ fst <$> groups)) [] Hrows)
      as (c1 & f1 & Heq).
    rewrite Heq. cbn [columns_loop].
    erewrite (columns_body_held e config query) by reflexivity.
    rewrite (accumulate_differ e config query _ _ _ c' (FormalName t'))
      by done.
    cbn [input output app].
    pose proof (columns_loop_carry groups t' c' rows' []
                  [with_Data
                     (set_Columns
                        (Columns (append_Column c t)
                         ++ columns_of e config query rows)
                        (append_Column c t))]) as Hcarry.
    rewrite app_nil_r in Hcarry. rewrite Hcarry; try done.
    + cbn [app]. f_equal. f_equal. unfold complete. cbn [fst snd].
      by rewrite (columns_of_cons _ _ c' _ Hc').
    + intros ->. destruct Hlast as [Hlen | (g & Hg & Htwo)];
        [simpl in Hlen; lia |].
      injection Hg as <-. intros ->. simpl in Htwo. lia.
    + intros Hgroups. destruct Hlast as [Hlen | (g & Hg & Htwo)];
        [simpl in Hlen; lia |].
      exists g. split; [|done].
      rewrite last_cons_cons in Hg.
      destruct groups; [done | by rewrite last_cons_cons in Hg].
Qed.

(** *** The columns of a key *)

Lemma column_sequence_app (xs ys : list (list Value)) :
  column_sequence e config query (xs ++ ys)
  = column_sequence e config query xs ++ column_sequence e config query ys.
Proof. apply omap_app. Qed.

Lemma columns_with_key_app (key : string) (xs ys : list (Column * string)) :
  columns_with_key key (xs ++ ys)
  = columns_with_key key xs ++ columns_with_key key ys.
Proof. unfold columns_with_key. by rewrite filter_app, fmap_app. Qed.

Lemma columns_with_key_rows (key key' : string) (rows : list (list Value)) :
  Forall (maps_to key') rows ->
  columns_with_key key (column_sequence e config query rows)
  = if decide (key' = key) then columns_of e config query rows else [].
Proof.
  unfold columns_of. destruct (decide (key' = key)) as [Heq|Hne].
  - induction rows as [|src rows IH]; intros Hrows; [done |].
    apply Forall_cons in Hrows as [[c Hc] Hrows]. specialize (IH Hrows).
    unfold column_sequence in *. cbn [omap list_omap]. rewrite Hc.
    unfold columns_with_key in *. rewrite filter_cons. cbn [snd].
    rewrite decide_True by done. cbn [fmap list_fmap fst]. by rewrite IH.
  - induction rows as [|src rows IH]; intros Hrows; [done |].
    apply Forall_cons in Hrows as [[c Hc] Hrows]. specialize (IH Hrows).
    unfold column_sequence in *. cbn [omap list_omap]. rewrite Hc.
    unfold columns_with_key in *. rewrite filter_cons. cbn [snd].
    by rewrite decide_False by done.
Qed.

Lemma columns_with_key_groups (key : string) (groups : list Group) :
  Forall (rows_of_its_key e config query) groups ->
  key ∉ (FormalName ∘ fst <$> groups) ->
  columns_with_key key
    (column_sequence e config query (concat (snd <$> groups))) = [].
Proof.
  induction groups as [|g groups IH]; intros Hall Hkey; [done |].
  apply Forall_cons in Hall as [Hg Hall].
  cbn [fmap list_fmap compose] in Hkey.
  apply not_elem_of_cons in Hkey as [Hne Hkey].
  cbn [fmap list_fmap concat].
  rewrite column_sequence_app, columns_with_key_app, IH by done.
  rewrite (columns_with_key_rows _ _ _ Hg). by rewrite decide_False.
Qed.

(** With distinct keys, what the specification expects of the correlator is
    every group complete. *)
Lemma one_per_table_groups (groups : list Group) :
  NoDup (FormalName ∘ fst <$> groups) ->
  Forall (rows_of_its_key e config query) groups ->
  one_per_table (fst <$> groups)
    (column_sequence e config query (concat (snd <$> groups)))
  = complete e config query <$> groups.
Proof.
  intros Hnd Hall. unfold one_per_table. rewrite <- list_fmap_compose.
  apply list_fmap_ext. intros i g Hg. cbn [compose].
  apply list_elem_of_lookup_2, list_elem_of_split in Hg
    as (before & after & ->).
  rewrite fmap_app in Hnd. cbn [fmap list_fmap] in Hnd.
  apply NoDup_app in Hnd as (_ & Hbefore & Hafter).
  apply NoDup_cons in Hafter as [Hafter _].
  apply Forall_app in Hall as [Hall1 Hall2].
  apply Forall_cons in Hall2 as [Hrows Hall2].
  rewrite fmap_app, concat_app. cbn [fmap list_fmap concat].
  rewrite !column_sequence_app, !columns_with_key_app.
  rewrite (columns_with_key_groups _ after) by done.
  rewrite (columns_with_key_groups _ before).
  - rewrite (columns_with_key_rows _ _ _ Hrows), decide_True by done.
    by rewrite app_nil_r.
  - done.
  - intros Hin. apply (Hbefore _ Hin). cbn [compose]. apply list_elem_of_here.
Qed.

(** *** A first table without columns *)

Lemma complete_without_rows (t : Metadata) :
  complete e config query (t, []) = t.
Proof.
  unfold complete, columns_of, column_sequence, set_Columns.
  cbn [fst snd omap list_omap fmap list_fmap]. rewrite app_nil_r.
  by destruct t.
Qed.

(** The first table has no row of columns: the first row, which is of the
    table that comes next, sends it as it was received, and every group after
    it is sent complete. *)
Lemma correlate_leading_empty (t : Metadata) (groups : list Group) :
  chained e config query (FormalName t) groups ->
  (exists g, last groups = Some g /\ (2 <= length (snd g))%nat) ->
  correlate e config query (with_Data t :: (with_Data ∘ fst <$> groups))
    (concat (snd <$> groups))
  = with_Data t :: (with_Data ∘ complete e config query <$> groups).
Proof.
  intros Hchain Hlast.
  destruct groups as [|[t' rows'] groups]; [by destruct Hlast as (g & Hg & _) |].
  destruct Hchain as (Hkey & [Hne Hrows'] & Hchain). cbn [fst snd] in *.
  destruct rows' as [|src' rows']; [done |].
  apply Forall_cons in Hrows' as [[c' Hc'] Hrows'].
  unfold correlate, start.
  cbn [fmap list_fmap concat compose fst snd app columns_loop].
  unfold columns_body at 1, pull.
  cbn [meta input receive Err with_Data col Data].
  rewrite (accumulate_differ e config query _ _ _ c' (FormalName t'))
    by done.
  cbn [input output app].
  pose proof (columns_loop_carry groups t' c' rows' [] [with_Data t])
    as Hcarry.
  rewrite app_nil_r in Hcarry. rewrite Hcarry; try done.
  - cbn [app]. f_equal. f_equal. unfold complete. cbn [fst snd].
    by rewrite (columns_of_cons _ _ c' _ Hc').
  - intros ->. destruct Hlast as (g & Hg & Htwo).
    injection Hg as <-. intros ->. simpl in Htwo. lia.
  - intros Hgroups. destruct Hlast as (g & Hg & Htwo).
    exists g. split; [|done].
    destruct groups; [done | by rewrite last_cons_cons in Hg].
Qed.

(** The stream for tables of which every one after the first has columns:
    every table is sent complete, in order, the first one as it was received
    when it has no column. *)
Lemma correlate_groups_after_first (groups : list Group) :
  NoDup (FormalName ∘ fst <$> groups) ->
  Forall (rows_of_its_key e config query) groups ->
  columns_after_first groups ->
  last_has_two groups ->
  correlate e config query (with_Data ∘ fst <$> groups)
    (concat (snd <$> groups))
  = with_Data ∘ complete e config query <$> groups.
Proof.
  intros Hnd Hall Hafter Hlast.
  destruct groups as [|[t rows] groups]; [done |].
  assert (Forall (has_its_columns e config query) groups) as Hrest.
  { apply Forall_cons in Hall as [_ Hall].
    assert (Forall (fun g : Group => snd g <> []) groups) as Hne
      by (by destruct groups).
    clear -Hall Hne. induction groups as [|g groups IH]; [done |].
    apply Forall_cons in Hall as [Hg Hall].
    apply Forall_cons in Hne as [Hgne Hne].
    constructor; [by split | by apply IH]. }
  destruct rows as [|src rows].
  - (* the first table has no row *)
    destruct groups as [|g' groups]; [done |].
    cbn [fmap list_fmap concat compose fst snd app].
    rewrite complete_without_rows.
    apply (correlate_leading_empty t (g' :: groups)).
    + by apply chained_NoDup.
    + destruct Hlast as [Hlen | (g & Hg & Htwo)]; [simpl in Hlen; lia |].
      exists g. split; [|done]. by rewrite last_cons_cons in Hg.
  - apply correlate_groups; [done | | done].
    apply Forall_cons in Hall as [Hg Hall].
    constructor; [by split | done].
Qed.

(** *** The tables sent after the first *)

Lemma later_have_columns_snoc (ms : list Metadata) (m : Metadata) :
  later_have_columns ms -> (ms <> [] -> Columns m <> []) ->
  later_have_columns (ms ++ [m]).
Proof.
  unfold later_have_columns. destruct ms as [|m0 ms]; intros Hms Hm.
  - constructor.
  - cbn [app tail] in *. apply Forall_app. split; [done |].
    constructor; [by apply Hm | constructor].
Qed.

Lemma later_have_columns_init (ms : list Metadata) (m : Metadata) :
  later_have_columns (ms ++ [m]) -> later_have_columns ms.
Proof.
  unfold later_have_columns. destruct ms as [|m0 ms]; [constructor |].
  cbn [app tail]. intros Hms. by apply Forall_app in Hms as [Hms _].
Qed.

Lemma Columns_append_Column (c : Column) (m : Metadata) :
  Columns (append_Column c m) <> [].
Proof.
  unfold append_Column, set_Columns. cbn [Columns]. by destruct (Columns m).
Qed.

Lemma sent_snoc_error (xs : list MetadataInProcess) (mip : MetadataInProcess) :
  Err mip <> None -> sent (xs ++ [mip]) = sent xs.
Proof.
  intros Herr. rewrite sent_app. unfold sent at 2.
  rewrite filter_cons, decide_False by done.
  by rewrite filter_nil, app_nil_r.
Qed.

(** The rest of the body keeps it: the column of the row is appended to the
    table held, or the table held is sent as it is. *)
Lemma accumulate_carrying (held : Metadata) (st : LoopState)
    (scan : gmap string string + error) :
  later_have_columns (sent (output st) ++ [held]) ->
  match accumulate e config held st scan with
  | inl st' => carrying st'
  | inr out => later_have_columns (sent out)
  end.
Proof.
  intros Hinv. unfold accumulate. destruct scan as [m|err].
  - destruct (toColumn e config m) as [c name]. case_decide.
    + unfold carrying. cbn [col meta output option_list].
      apply later_have_columns_snoc.
      * by eapply later_have_columns_init.
      * intros _. apply Columns_append_Column.
    + unfold carrying. cbn [col meta output option_list].
      by rewrite sent_snoc_Data, app_nil_r.
  - rewrite sent_snoc_Err. by eapply later_have_columns_init.
Qed.

(** The block that receives a table keeps it: a table received while a
    column is carried over is held with that column. *)
Lemma pull_carrying (st : LoopState) :
  carrying st ->
  match pull st with
  | inl st' =>
      exists held, meta st' = Some held
                   /\ later_have_columns (sent (output st') ++ [held])
  | inr out => later_have_columns (sent out)
  end.
Proof.
  unfold carrying, pull. intros Hinv.
  destruct (meta st) as [held|] eqn:Hmeta.
  - exists held. split; [done |].
    destruct (col st); [done | by destruct Hinv].
  - destruct (receive (input st)) as [mip input'].
    destruct (Err mip) as [err|] eqn:Herr.
    + rewrite sent_snoc_error by (by rewrite Herr).
      destruct (col st).
      * cbn [option_list] in Hinv. by rewrite app_nil_r in Hinv.
      * destruct Hinv as [_ ->]. constructor.
    + destruct (col st) as [c|].
      * eexists. split; [reflexivity |]. cbn [output].
        cbn [option_list] in Hinv. rewrite app_nil_r in Hinv.
        assert (sent (if decide (FormalName (Data mip) <> formalName st)
                      then output st
                             ++ [with_Err (correlation_error
                                             (FormalName (Data mip))
                                             (formalName st))]
                      else output st) = sent (output st)) as ->.
        { case_decide; [apply sent_snoc_Err | done]. }
        apply later_have_columns_snoc; [done |].
        intros _. apply Columns_append_Column.
      * eexists. split; [reflexivity |]. cbn [output].
        destruct Hinv as [_ ->]. constructor.
Qed.

Lemma columns_body_carrying (st : LoopState) (src : list Value) :
  carrying st ->
  match columns_body e config query st src with
  | inl st' => carrying st'
  | inr out => later_have_columns (sent out)
  end.
Proof.
  intros Hinv. unfold columns_body.
  pose proof (pull_carrying st Hinv) as Hpull.
  destruct (pull st) as [st1|out]; [|done].
  destruct Hpull as (held & -> & Hheld).
  by apply accumulate_carrying.
Qed.

Lemma columns_loop_carrying (rows : list (list Value)) (st : LoopState) :
  carrying st ->
  match columns_loop e config query st rows with
  | inl st' => carrying st'
  | inr out => later_have_columns (sent out)
  end.
Proof.
  revert st. induction rows as [|src rows IH]; intros st Hinv; [done |].
  cbn [columns_loop].
  pose proof (columns_body_carrying st src Hinv) as Hbody.
  destruct (columns_body e config query st src) as [st1|out]; [|done].
  by apply IH.
Qed.

Lemma correlate_later_have_columns (input : list MetadataInProcess)
    (rows : list (list Value)) :
  later_have_columns (sent (correlate e config query input rows)).
Proof.
  unfold correlate.
  pose proof (columns_loop_carrying rows (start input)) as Hloop.
  destruct (columns_loop e config query (start input) rows) as [st|out];
    cbn [flush]; [|by apply Hloop].
  assert (carrying st) as Hinv by (by apply Hloop; split).
  unfold carrying in Hinv.
  destruct (col st).
  - destruct (meta st) as [held|]; cbn [option_list] in Hinv.
    + by rewrite sent_snoc_Data.
    + by rewrite app_nil_r in Hinv.
  - destruct Hinv as [-> ->]. constructor.
Qed.

(** C2, amended. For tables with distinct keys and the rows of their
    columns in the order of the tables, where every table after the first
    has a row of columns, a table that is the only one has a row, and the
    last table has two rows or more when it is not the only table: the
    correlator sends exactly one Metadata per table, in the order of the
    tables, each with the columns of its key in the order of the rows, and no
    error; a first table without a row of columns is sent with the columns
    it was received with, none for a table of [extractTables], in its
    position. And whatever the table stream and the rows, every Metadata
    that the correlator sends without error after the first one it sends has
    a column: a table without a row of columns that is not the first one
    sent is not sent with an empty column sequence. *)
Theorem correlate_one_per_table :
  (forall groups : list Group,
     NoDup (FormalName ∘ fst <$> groups) ->
     Forall (rows_of_its_key e config query) groups ->
     columns_after_first groups ->
     last_has_two groups ->
     emits_one_per_table e config query (fst <$> groups)
       (concat (snd <$> groups))
     /\ correlate e config query (with_Data ∘ fst <$> groups)
          (concat (snd <$> groups))
        = with_Data ∘ complete e config query <$> groups)
  /\ (forall (input : list MetadataInProcess) (rows : list (list Value)),
        later_have_columns (sent (correlate e config query input rows))).
Proof.
  split; [|apply correlate_later_have_columns].
  intros groups Hnd Hall Hafter Hlast. unfold emits_one_per_table.
  rewrite one_per_table_groups by done.
  rewrite <- !list_fmap_compose.
  split; by apply correlate_groups_after_first.
Qed.

End Groups.

(** Of three tables the first has no column: it is sent without a column,
    first, and the two others with their columns; and in the stream of the
    tables T1, T2, T3 with the rows of A of T1 and C, D of T3, where T2 has
    no column, the Metadata sent after the first has a column. *)
Lemma correlate_one_per_table_witness :
  correlate (H := example_runtime) Db2Extractor test_config example_query
    (with_Data <$> [table "T1"; table "T2"; table "T3"])
    (concat (snd <$> leading_empty_groups))
  = [with_Data (table "T1");
     with_Data (set_Columns [column "C"] (table "T2"));
     with_Data (set_Columns [column "D"; column "E"] (table "T3"))]
  /\ later_have_columns
       (sent (correlate (H := example_runtime) Db2Extractor test_config
                example_query (with_Data <$> sparse_tables) sparse_rows)).
Proof.
  assert (NoDup (FormalName ∘ fst <$> leading_empty_groups)) as Hnd.
  { apply (bool_decide_unpack _). vm_compute. exact I. }
  assert (Forall (rows_of_its_key Db2Extractor test_config example_query)
            leading_empty_groups) as Hall.
  { repeat first
      [ apply Forall_nil_2
      | apply Forall_cons_2
      | eexists; vm_compute; reflexivity ]. }
  assert (columns_after_first leading_empty_groups) as Hafter.
  { repeat constructor; discriminate. }
  assert (last_has_two leading_empty_groups) as Hlast.
  { right. eexists. split; [reflexivity |]. simpl. lia. }
  destruct (correlate_one_per_table (H := example_runtime) Db2Extractor
              test_config example_query) as [Hone Hlater].
  destruct (Hone leading_empty_groups Hnd Hall Hafter Hlast) as [_ Heq].
  split; [exact Heq | apply Hlater].
Defined.

(** C2, as stated, fails: the tables T1, T2, T3 and the rows of the columns
    A of T1 and C, D of T3 are in the order of their keys, and the correlator
    does not send one Metadata per table; for T2, which has no column, it
    sends a correlation error and T2 with the column C, and it never sends
    T3. *)
Lemma one_per_table_counterexample :
  ordered (FormalName <$> sparse_tables)
  /\ ordered (snd <$> column_sequence Db2Extractor test_config example_query
                       sparse_rows)
  /\ ~ emits_one_per_table Db2Extractor test_config example_query
         sparse_tables sparse_rows
  /\ correlate Db2Extractor test_config example_query
       (with_Data <$> sparse_tables) sparse_rows
     = [with_Data (set_Columns [column "A"] (table "T1"));
        with_Err "meta.FormalName(DB2INST1.T2) != formalName(DB2INST1.T3)";
        with_Data (set_Columns [column "C"] (table "T2"))].
Proof.
  split_and!.
  - repeat constructor; by vm_compute.
  - assert (snd <$> column_sequence Db2Extractor test_config example_query
                      sparse_rows
            = ["DB2INST1.T1"; "DB2INST1.T3"; "DB2INST1.T3"]) as ->
      by (vm_compute; reflexivity).
    repeat constructor; by vm_compute.
  - intros Heq. vm_compute in Heq. discriminate Heq.
  - vm_compute. reflexivity.
Qed.

(** C3. On the table sequence and the column sequence of the example, the
    correlator sends the first table with its two columns and nothing else:
    the second table, whose only column ended the first, is not sent. *)
Theorem correlate_example_loses_last_table :
  FormalName <$> example_tables = ["DB2INST1.T1"; "DB2INST1.T2"]
  /\ column_sequence Db2Extractor test_config example_query example_rows
     = [(column "A", "DB2INST1.T1"); (column "B", "DB2INST1.T1");
        (column "C", "DB2INST1.T2")]
  /\ correlate Db2Extractor test_config example_query
       (with_Data <$> example_tables) example_rows
     = [with_Data (set_Columns [column "A"; column "B"] (table "T1"))]
  /\ correlate Db2Extractor test_config example_query
       (with_Data <$> example_tables) example_rows
     <> [with_Data (set_Columns [column "A"; column "B"] (table "T1"));
         with_Data (set_Columns [column "C"] (table "T2"))].
Proof.
  split_and!; try (vm_compute; reflexivity).
  intros Heq. vm_compute in Heq. discriminate Heq.
Qed.

(** ** The run *)

(** On a sink that takes its writes, [Run] returns no error once the
    database is open: no error of a stage reaches its result. *)
Lemma Run_accepts_all {W} `{Writer W} `{GoRuntime} (e : Extractor)
    (config : Config) (db : DB) (out : W) :
  accepts_all W -> sql_Open db = None ->
  Run e config db out
  = (write_all (extractColumns e config db (extractTables e config db)) out,
     None).
Proof.
  intros Hacc Hopen. unfold Run. rewrite Hopen.
  by apply writeCSV_accepts_all.
Qed.

(** C1. A run in which every query fails, so that both producer stages send
    an envelope with the error, returns nil; and so does a run in which the
    discovery of the columns of the tables view fails and the columns query
    has rows, where the correlator forwards the envelope of the tables stage.
    In both, the sink receives the record of an empty Metadata for the
    envelope of the error. *)
Theorem Run_returns_nil_on_stage_error :
  extractTables Db2Extractor test_config unreachable = [with_Err "SQL30081N"]
  /\ extractColumns Db2Extractor test_config unreachable
       (extractTables Db2Extractor test_config unreachable)
     = [with_Err "SQL30081N"]
  /\ Run Db2Extractor test_config unreachable ("" : Buffer)
     = (unlines ["20,,,,,,"; ""], None)
  /\ extractTables Db2Extractor test_config tables_denied
     = [with_Err "SQL0551N"]
  /\ extractColumns Db2Extractor test_config tables_denied
       (extractTables Db2Extractor test_config tables_denied)
     = [with_Err "SQL0551N"]
  /\ Run Db2Extractor test_config tables_denied ("" : Buffer)
     = (unlines ["20,,,,,,"; ""], None).
Proof.
  split_and!; vm_compute; reflexivity.
Qed.

(** * Further properties of the code *)

(** ** The registry of extractors *)

(** [GetExtractor] finds each of the three extractors under the name of the
    driver, a dot and its system schema, and returns nil for every other
    name. *)
Theorem GetExtractor_registry (name : string) :
  (forall d : Dialect, GetExtractor (registered_name d) = Some (extractor_of d))
  /\ ((forall d : Dialect, name <> registered_name d) ->
      GetExtractor name = None).
Proof.
  split.
  - intros d. unfold GetExtractor, extractors, register.
    destruct d; cbn [extractor_of].
    + rewrite !lookup_insert_ne
        by (intros Heq; vm_compute in Heq; discriminate Heq).
      apply lookup_insert_eq.
    + rewrite lookup_insert_ne
        by (intros Heq; vm_compute in Heq; discriminate Heq).
      apply lookup_insert_eq.
    + apply lookup_insert_eq.
  - intros Hne. unfold GetExtractor, extractors, register.
    pose proof (Hne SYSCAT). pose proof (Hne SYSIBM). pose proof (Hne QSYS2).
    rewrite !lookup_insert_ne by done. apply lookup_empty.
Qed.

Lemma GetExtractor_registry_witness :
  GetExtractor "go_ibm_db.INFORMATION_SCHEMA" = None.
Proof.
  apply (GetExtractor_registry "go_ibm_db.INFORMATION_SCHEMA").
  intros []; by vm_compute.
Defined.

(** ** The CSV sink, further *)

Lemma writeCSV_app {W} `{Writer W} (xs ys : list MetadataInProcess) (out : W) :
  writeCSV (xs ++ ys) out
  = match writeCSV xs out with
    | (out', None) => writeCSV ys out'
    | (out', Some err) => (out', Some err)
    end.
Proof.
  revert out. induction xs as [|m xs IH]; intros out; [done |].
  cbn [app writeCSV].
  destruct (Write out (ToCSVString (Data m))) as [out' [err|]]; [done |].
  apply IH.
Qed.

(** [writeCSV] stops at the first write that fails: it returns the error of
    that write, and the envelopes after it are not written. *)
Theorem writeCSV_stops_at_write_error {W} `{Writer W}
    (before after : list MetadataInProcess) (m : MetadataInProcess)
    (out out1 out2 : W) (err : error) :
  writeCSV before out = (out1, None) ->
  Write out1 (ToCSVString (Data m)) = (out2, Some err) ->
  writeCSV (before ++ m :: after) out = (out2, Some err).
Proof.
  intros Hbefore Hm. rewrite writeCSV_app, Hbefore. cbn [writeCSV].
  by rewrite Hm.
Qed.

Lemma writeCSV_stops_at_write_error_witness :
  writeCSV ([with_Data emp] ++ with_Data emp :: [with_Data emp]) small_disk
  = ({| written := ToCSVString emp +:+ take_bytes 37 (ToCSVString emp);
        room := 0 |}, Some "short write").
Proof.
  apply (writeCSV_stops_at_write_error [with_Data emp] [with_Data emp]
           (with_Data emp) small_disk
           {| written := ToCSVString emp; room := 37 |}).
  - vm_compute. reflexivity.
  - vm_compute. reflexivity.
Defined.

(** On a [bytes.Buffer], [writeCSV] appends the record groups of all the
    envelopes, in order, and returns nil. *)
Theorem writeCSV_Buffer (input : list MetadataInProcess) (buf : Buffer) :
  writeCSV input buf
  = (foldl (fun b m => b +:+ ToCSVString (Data m)) buf input, None).
Proof.
  revert buf. induction input as [|m input IH]; intros buf; [done |].
  cbn [writeCSV foldl]. unfold Write, Buffer_Writer. apply IH.
Qed.

(** ** The run, further *)

(** On a sink that takes every write, the only error that [Run] returns is
    the one of [sql.Open], and then nothing is written. *)
Theorem Run_error_is_sql_Open {W} `{Writer W} `{GoRuntime} (e : Extractor)
    (config : Config) (db : DB) (out : W) :
  accepts_all W ->
  snd (Run e config db out) = sql_Open db
  /\ (is_Some (sql_Open db) -> fst (Run e config db out) = out).
Proof.
  intros Hacc. unfold Run. destruct (sql_Open db) as [err|] eqn:Hopen.
  - split; [done |]. done.
  - rewrite writeCSV_accepts_all by done. split; [done |]. by intros [? ?].
Qed.

Lemma Run_error_is_sql_Open_witness :
  snd (Run Db2Extractor test_config tables_denied ("" : Buffer)) = None.
Proof.
  apply (Run_error_is_sql_Open Db2Extractor test_config tables_denied
           ("" : Buffer) Buffer_accepts_all).
Defined.

Section Stages.
Context `{GoRuntime}.
Variables (e : Extractor) (config : Config).

(** *** extractTables *)

(** The loop of [extractTables] sends one Metadata per row, in the order of
    the rows, up to the first row whose scan fails; it sends the error of
    that row and nothing of the rows after it. *)
Theorem tables_loop_until_error (query : Query)
    (good rest : list (list Value)) (maps : list (gmap string string))
    (bad : list Value) (err : error) :
  Forall2 (fun src m => Query_Scan query src = inl m) good maps ->
  Query_Scan query bad = inr err ->
  tables_loop e config query good
  = with_Data ∘ toMetadata e config <$> maps
  /\ tables_loop e config query (good ++ bad :: rest)
     = (with_Data ∘ toMetadata e config <$> maps) ++ [with_Err err].
Proof.
  intros Hgood Hbad.
  induction Hgood as [|src m good maps Hsrc Hgood [IH1 IH2]].
  - split; [done |]. cbn [app tables_loop]. by rewrite Hbad.
  - cbn [app tables_loop]. rewrite Hsrc, IH1, IH2. by split.
Qed.

(** [extractTables] sends a single envelope with the error when the
    discovery of the columns or the query fails. *)
Theorem extractTables_query_error (db : DB) (err : error) :
  (QueryContext db (tables_ColumnList e) = inr err
   \/ exists cols,
        ColumnList (QueryContext db (tables_ColumnList e)) = inl cols
        /\ Exec (NewQuery cols (tables_FROM e (TargetSchemaInClause config)))
             db = inr err) ->
  extractTables e config db = [with_Err err].
Proof.
  unfold extractTables. intros [Herr | (cols & Hcols & Herr)].
  - by rewrite Herr.
  - by rewrite Hcols, Herr.
Qed.

(** *** extractColumns *)

(** [extractColumns] sends a single envelope with the error when the
    discovery of the columns or the query fails, and nothing at all when the
    query has no row: the tables that the tables stage sends are then not
    received. *)
Theorem extractColumns_without_rows (db : DB)
    (input : list MetadataInProcess) :
  (forall err,
     QueryContext db (columns_ColumnList e) = inr err ->
     extractColumns e config db input = [with_Err err])
  /\ (forall cols err,
        ColumnList (QueryContext db (columns_ColumnList e)) = inl cols ->
        Exec (NewQuery cols (columns_FROM e (TargetSchemaInClause config)))
          db = inr err ->
        extractColumns e config db input = [with_Err err])
  /\ (forall cols,
        ColumnList (QueryContext db (columns_ColumnList e)) = inl cols ->
        Exec (NewQuery cols (columns_FROM e (TargetSchemaInClause config)))
          db = inl [] ->
        extractColumns e config db input = []).
Proof.
  unfold extractColumns. split_and!.
  - intros err Herr. by rewrite Herr.
  - intros cols err Hcols Herr. by rewrite Hcols, Herr.
  - intros cols Hcols Hrows. by rewrite Hcols, Hrows.
Qed.

End Stages.

Lemma tables_loop_until_error_witness :
  tables_loop (H := example_runtime) Db2Extractor test_config
    (NewQuery ["TABSCHEMA"; "TABNAME"] "")
    ([[string_value "DB2INST1"; string_value "T1"]]
     ++ [string_value "DB2INST1"]
     :: [[string_value "DB2INST1"; string_value "T3"]])
  = [with_Data (table "T1");
     with_Err "sql: expected destination arguments in Scan"].
Proof.
  destruct (tables_loop_until_error (H := example_runtime) Db2Extractor
              test_config (NewQuery ["TABSCHEMA"; "TABNAME"] "")
              [[string_value "DB2INST1"; string_value "T1"]]
              [[string_value "DB2INST1"; string_value "T3"]]
              [{[ "TABSCHEMA" := "DB2INST1"; "TABNAME" := "T1" ]}]
              [string_value "DB2INST1"]
              "sql: expected destination arguments in Scan") as [_ Heq].
  - constructor; [vm_compute; reflexivity | constructor].
  - vm_compute. reflexivity.
  - rewrite Heq. vm_compute. reflexivity.
Defined.

Lemma extractTables_query_error_witness :
  extractTables Db2Extractor test_config unreachable = [with_Err "SQL30081N"].
Proof.
  apply (extractTables_query_error (H := example_runtime)). by left.
Defined.

Lemma extractColumns_without_rows_witness :
  extractColumns Db2Extractor test_config unreachable
    [with_Data (table "T1")]
  = [with_Err "SQL30081N"].
Proof.
  destruct (extractColumns_without_rows (H := example_runtime) Db2Extractor
              test_config unreachable [with_Data (table "T1")])
    as (Herr & _).
  by apply Herr.
Defined.

(** ** The mappers, further *)

Lemma foldl_remark_Column (v : string) (rs : list string) (col : Column) :
  let col' := foldl (remark_Column v) col rs in
  Column_Alias col' = (if decide ("Alias" ∈ rs) then v else Column_Alias col)
  /\ Column_Description col'
     = (if decide ("Description" ∈ rs) then v else Column_Description col)
  /\ Column_Name col' = Column_Name col
  /\ Column_Type col' = Column_Type col
  /\ Column_Mode col' = Column_Mode col
  /\ Column_Order col' = Column_Order col
  /\ Column_KeyType col' = Column_KeyType col.
Proof.
  revert col. induction rs as [|r rs IH]; intros col; cbn [foldl].
  - rewrite !decide_False by apply not_elem_of_nil. done.
  - destruct (IH (remark_Column v col r))
      as (-> & -> & -> & -> & -> & -> & ->).
    unfold remark_Column.
    destruct (decide (r = "Alias")) as [->|Ha].
    + rewrite (decide_True (P := "Alias" ∈ "Alias" :: rs))
        by apply list_elem_of_here.
      split_and!; try done.
      * by destruct (decide ("Alias" ∈ rs)).
      * cbn [Column_Description set_Column_Alias].
        destruct (decide ("Description" ∈ rs)) as [Hin|Hnin].
        -- by rewrite decide_True by (by apply list_elem_of_further).
        -- rewrite decide_False; [done |].
           intros [Heq|Hin]%elem_of_cons; [done | by apply Hnin].
    + destruct (decide (r = "Description")) as [->|Hd].
      * rewrite (decide_True (P := "Description" ∈ "Description" :: rs))
          by apply list_elem_of_here.
        split_and!; try done.
        -- cbn [Column_Alias set_Column_Description].
           destruct (decide ("Alias" ∈ rs)) as [Hin|Hnin].
           ++ by rewrite decide_True by (by apply list_elem_of_further).
           ++ rewrite decide_False; [done |].
              intros [Heq|Hin]%elem_of_cons; [done | by apply Hnin].
        -- by destruct (decide ("Description" ∈ rs)).
      * split_and!; try done.
        -- destruct (decide ("Alias" ∈ rs)) as [Hin|Hnin].
           ++ by rewrite decide_True by (by apply list_elem_of_further).
           ++ rewrite decide_False; [done |].
              intros [Heq|Hin]%elem_of_cons; [done | by apply Hnin].
        -- destruct (decide ("Description" ∈ rs)) as [Hin|Hnin].
           ++ by rewrite decide_True by (by apply list_elem_of_further).
           ++ rewrite decide_False; [done |].
              intros [Heq|Hin]%elem_of_cons; [done | by apply Hnin].
Qed.

(** Every table mapper makes a Metadata of type Table, in the language of
    the run configuration and without columns; its name is the name field
    of the row, and its formal name is the trimmed schema, a dot and the
    name, or empty when the row lacks the name or the schema. *)
Theorem toMetadata_fields (d : Dialect) (config : Config)
    (m : gmap string string) :
  let meta := toMetadata (extractor_of d) config m in
  MetaType meta = 1%Z
  /\ Metadata_Lang meta = Lang config
  /\ Columns meta = []
  /\ Metadata_Name meta = default "" (m !! table_name_field d)
  /\ FormalName meta
     = match m !! table_schema_field d with
       | Some s =>
           if decide (Metadata_Name meta <> "")
           then TrimSpace s +:+ "." +:+ Metadata_Name meta
           else ""
       | None => ""
       end.
Proof.
  destruct d; cbn [extractor_of toMetadata Db2Extractor ZDb2Extractor
                     IDb2Extractor table_name_field table_schema_field].
  - unfold Db2_toMetadata.
    destruct (m !! "TABNAME") as [n|]; destruct (m !! "TABSCHEMA") as [s|];
      simpl; repeat case_decide; try done; by split_and!.
  - unfold ZDb2_toMetadata.
    destruct (m !! "REMARKS") as [v|];
      [match goal with
       | |- context [foldl (remark_Metadata v) ?meta ?rs] =>
           destruct (foldl_remark_Metadata v rs meta)
             as (_ & _ & -> & -> & -> & -> & ->)
       end |];
      destruct (m !! "NAME") as [n|]; destruct (m !! "CREATOR") as [s|];
      simpl; repeat case_decide; try done; by split_and!.
  - unfold IDb2_toMetadata.
    destruct (m !! "LONG_COMMENT") as [v|];
      [match goal with
       | |- context [foldl (remark_Metadata v) ?meta ?rs] =>
           destruct (foldl_remark_Metadata v rs meta)
             as (_ & _ & -> & -> & -> & -> & ->)
       end |];
      destruct (m !! "TABLE_NAME") as [n|];
      destruct (m !! "TABLE_OWNER") as [s|];
      simpl; repeat case_decide; try done; by split_and!.
Qed.

Ltac destruct_lookups :=
  repeat match goal with
         | |- context [match ?m !! ?k with _ => _ end] =>
             destruct (m !! k)
         | |- context [match Atoi ?v with _ => _ end] => destruct (Atoi v)
         end.

Ltac remark_fold :=
  repeat match goal with
         | |- context [foldl (remark_Column ?v) ?col ?rs] =>
             let Ha := fresh in
             let Hd := fresh in
             let Hm := fresh in
             let Ho := fresh in
             let Hk := fresh in
             destruct (foldl_remark_Column v rs col)
               as (Ha & Hd & _ & _ & Hm & Ho & Hk);
             rewrite ?Ha, ?Hd, ?Hm, ?Ho, ?Hk; clear Ha Hd Hm Ho Hk
         end.

(** The key that every column mapper returns is the trimmed schema of the
    row, a dot and the name of its table, each empty when the row lacks
    it. *)
Lemma toColumn_key (d : Dialect) (config : Config) (m : gmap string string) :
  snd (toColumn (extractor_of d) config m)
  = default "" (TrimSpace <$> m !! column_schema_field d) +:+ "."
    +:+ default "" (m !! column_table_field d).
Proof.
  destruct d; cbn [extractor_of toColumn Db2Extractor ZDb2Extractor
                     IDb2Extractor column_schema_field column_table_field];
    unfold Db2_toColumn, ZDb2_toColumn, IDb2_toColumn; cbn [snd];
    destruct_lookups; cbn [fmap option_fmap option_map default];
    rewrite ?append_assoc, ?append_nil_r; reflexivity.
Qed.

Lemma toColumn_fields (d : Dialect) (config : Config)
    (m : gmap string string) :
  let col := fst (toColumn (extractor_of d) config m) in
  Column_Order col = default 0%Z (m !! column_order_field d ≫= Atoi)
  /\ Column_Mode col
     = match m !! column_nullable_field d with
       | Some v => if decide (v = "Y") then 0%Z else 1%Z
       | None => 0%Z
       end
  /\ Column_Alias col
     = match column_heading d m with
       | Some heading => heading
       | None =>
           match m !! column_remarks_field d with
           | Some v => routed config "Alias" v
           | None => ""
           end
       end
  /\ Column_Description col
     = match m !! column_remarks_field d with
       | Some v => routed config "Description" v
       | None => ""
       end
  /\ Column_KeyType col = row_KeyType d m.
Proof.
  unfold routed, row_KeyType, column_heading, nullable_Mode.
  destruct d; cbn [extractor_of toColumn Db2Extractor ZDb2Extractor
                     IDb2Extractor column_order_field column_nullable_field
                     column_remarks_field column_heading_field mbind
                     option_bind];
    unfold Db2_toColumn, ZDb2_toColumn, IDb2_toColumn, nullable_Mode;
    cbn [fst].
  - destruct (m !! "COLNAME"), (m !! "TYPENAME"), (m !! "TYPESCHEMA"),
      (m !! "NULLS"), (m !! "COLNO") as [v|], (m !! "KEYSEQ") as [w|],
      (m !! "REMARKS");
      cbn [mbind option_bind];
      try destruct (Atoi v); try destruct (Atoi w);
      remark_fold; by split_and!.
  - destruct (m !! "NAME"), (m !! "COLTYPE"),
      (m !! "NULLS"), (m !! "COLNO") as [v|], (m !! "KEYSEQ") as [w|],
      (m !! "REMARKS"), (m !! "LABEL");
      cbn [mbind option_bind];
      try destruct (Atoi v); try destruct (Atoi w);
      cbn [Column_Order Column_Mode Column_Alias Column_Description
             Column_KeyType set_Column_Alias];
      remark_fold; by split_and!.
  - destruct (m !! "COLUMN_NAME"), (m !! "DATA_TYPE"),
      (m !! "IS_NULLABLE"), (m !! "ORDINAL_POSITION") as [v|],
      (m !! "IS_IDENTITY") as [w|],
      (m !! "COLUMN_TEXT"), (m !! "COLUMN_HEADING");
      cbn [mbind option_bind];
      try destruct (Atoi v); try destruct (decide (w = "YES"));
      cbn [Column_Order Column_Mode Column_Alias Column_Description
             Column_KeyType set_Column_Alias];
      remark_fold; by split_and!.
Qed.

(** Every column mapper takes the position of the column from the order
    field when [strconv.Atoi] reads it, and leaves 0 when the field is
    missing or is no number; the mode is Nullable (0) for the flag "Y" and
    when the flag is missing, and Required (1) for every other flag. *)
Theorem toColumn_Order_Mode (d : Dialect) (config : Config)
    (m : gmap string string) :
  let col := fst (toColumn (extractor_of d) config m) in
  Column_Order col = default 0%Z (m !! column_order_field d ≫= Atoi)
  /\ (m !! column_order_field d ≫= Atoi = None -> Column_Order col = 0%Z)
  /\ Column_Mode col
     = match m !! column_nullable_field d with
       | Some v => if decide (v = "Y") then 0%Z else 1%Z
       | None => 0%Z
       end.
Proof.
  destruct (toColumn_fields d config m) as (Horder & Hmode & _).
  split_and!; [done | | done]. intros Hnone. by rewrite Horder, Hnone.
Qed.

Lemma toColumn_Order_Mode_witness :
  Column_Order (fst (toColumn (extractor_of SYSIBM) test_config
                       sysibm_column_row)) = 0%Z.
Proof.
  destruct (toColumn_Order_Mode SYSIBM test_config sysibm_column_row)
    as (_ & Hnone & _).
  apply Hnone. vm_compute. reflexivity.
Defined.

(** Every column mapper routes the remarks of the row to Alias and to
    Description as the run configuration says; a heading of the row, which
    the mappers of SYSIBM and QSYS2 read, replaces the alias whatever the
    routing. *)
Theorem toColumn_remarks (d : Dialect) (config : Config)
    (m : gmap string string) :
  let col := fst (toColumn (extractor_of d) config m) in
  Column_Alias col
  = match column_heading d m with
    | Some heading => heading
    | None =>
        match m !! column_remarks_field d with
        | Some v => routed config "Alias" v
        | None => ""
        end
    end
  /\ Column_Description col
     = match m !! column_remarks_field d with
       | Some v => routed config "Description" v
       | None => ""
       end.
Proof. by destruct (toColumn_fields d config m) as (_ & _ & Ha & Hd & _). Qed.

(** A column is a primary key when the row of SYSCAT or SYSIBM has a KEYSEQ
    that is a number, which is its position in the key, and when the row of
    QSYS2 has IS_IDENTITY "YES", with position 0; else it has no
    constraint. *)
Theorem toColumn_KeyType (d : Dialect) (config : Config)
    (m : gmap string string) :
  Column_KeyType (fst (toColumn (extractor_of d) config m)) = row_KeyType d m.
Proof. by destruct (toColumn_fields d config m) as (_ & _ & _ & _ & Hk). Qed.

Lemma append_eq_nil (a b : string) : a +:+ b = "" -> a = "" /\ b = "".
Proof. destruct a; [done | discriminate]. Qed.

(** The table mapper and the column mapper of a catalog give the same key to
    a table and to its columns: for a row of the tables view and a row of the
    columns view with the same schema and the same name of table, not empty,
    the formal name of the Metadata is the key of the column, the trimmed
    schema, a dot and the name.  The key of a column is never empty. *)
Theorem mappers_agree_on_key (d : Dialect) (config : Config)
    (table_row column_row : gmap string string) (schema name : string) :
  table_row !! table_schema_field d = Some schema ->
  table_row !! table_name_field d = Some name ->
  name <> "" ->
  column_row !! column_schema_field d = Some schema ->
  column_row !! column_table_field d = Some name ->
  FormalName (toMetadata (extractor_of d) config table_row)
  = snd (toColumn (extractor_of d) config column_row)
  /\ snd (toColumn (extractor_of d) config column_row)
     = TrimSpace schema +:+ "." +:+ name
  /\ forall m, snd (toColumn (extractor_of d) config m) <> "".
Proof.
  intros Hts Htn Hname Hcs Hcn.
  destruct (toMetadata_fields d config table_row)
    as (_ & _ & _ & Hn & Hf).
  rewrite Hts, Hn, Htn in Hf. cbn [default] in Hf.
  rewrite decide_True in Hf by done.
  rewrite Hf, toColumn_key, Hcs, Hcn. split_and!; [done.. |].
  intros m. rewrite toColumn_key. intros Heq.
  apply append_eq_nil in Heq as [_ Heq]. discriminate Heq.
Qed.

Lemma mappers_agree_on_key_witness :
  FormalName (toMetadata (extractor_of SYSCAT) test_config syscat_table_row)
  = "DB2INST1.EMP"
  /\ snd (toColumn (extractor_of SYSCAT) test_config syscat_column_row)
     = "DB2INST1.EMP".
Proof.
  assert ("EMP" <> "") as Hname by discriminate.
  destruct (mappers_agree_on_key SYSCAT test_config syscat_table_row
              syscat_column_row "DB2INST1 " "EMP"
              eq_refl eq_refl Hname eq_refl eq_refl) as (Heq & Hkey & _).
  rewrite Heq, Hkey. split; vm_compute; reflexivity.
Defined.

(** The position that the driver hands over as an integer reaches the
    Column: scanned into its decimal numeral and read back by the mapper, the
    order of the column is that integer. *)
Theorem toColumn_Order_of_integer `{GoRuntime} (d : Dialect) (config : Config)
    (m : gmap string string) (k : IntKind) (i : Z) :
  (minInt <= i <= maxInt)%Z ->
  m !! column_order_field d = Some (scanned "" (Int_value k i)) ->
  Column_Order (fst (toColumn (extractor_of d) config m)) = i.
Proof.
  intros Hi Hm. destruct (toColumn_fields d config m) as (-> & _).
  rewrite Hm. change (scanned "" (Int_value k i)) with (FormatInt i 10).
  cbn [mbind option_bind]. by rewrite Atoi_FormatInt.
Qed.

Lemma toColumn_Order_of_integer_witness :
  Column_Order
    (fst (toColumn (extractor_of SYSCAT) test_config
            {[ "COLNO" := scanned (H := example_runtime) ""
                            (Int_value Int16 (-7)) ]})) = (-7)%Z.
Proof.
  apply (toColumn_Order_of_integer (H := example_runtime) SYSCAT test_config
           _ Int16 (-7)).
  - by vm_compute.
  - vm_compute. reflexivity.
Defined.

(** ** The correlator, further *)

Section CorrelatorOrder.
Context `{GoRuntime}.
Variables (e : Extractor) (config : Config) (query : Query).

Lemma columns_body_returns (tables : list MetadataInProcess) (st : LoopState)
    (src : list Value) (out : list MetadataInProcess) :
  correlated tables st ->
  columns_body e config query st src = inr out ->
  exists k, table_of <$> sent out = table_of <$> received tables k.
Proof.
  intros Hinv Hbody. unfold columns_body in Hbody.
  destruct (pull st) as [st1|out1] eqn:Hpull.
  - destruct (pull_correlated _ _ _ Hpull Hinv)
      as [(k & _ & Hsent) [held Hheld]].
    rewrite Hheld in Hbody, Hsent. simpl option_list in Hsent.
    unfold accumulate in Hbody.
    destruct (Query_Scan query src) as [m|err].
    { destruct (toColumn e config m). by case_decide. }
    injection Hbody as <-. rewrite sent_snoc_Err.
    destruct k as [|k].
    { rewrite fmap_app in Hsent.
      by destruct (table_of <$> sent (output st1)). }
    rewrite received_S, !fmap_app in Hsent.
    apply app_inj_tail in Hsent as [Hsent _]. by exists k.
  - injection Hbody as <-. unfold pull in Hpull.
    destruct Hinv as (k & Hin & Hsent).
    destruct (meta st); [done |]. simpl option_list in Hsent.
    rewrite app_nil_r in Hsent.
    destruct (receive (input st)) as [mip input'].
    destruct (Err mip) as [err|] eqn:Herr; [|by destruct (col st)].
    injection Hpull as <-. exists k. rewrite sent_app.
    unfold sent at 2. rewrite filter_cons, decide_False by (by rewrite Herr).
    by rewrite filter_nil, app_nil_r.
Qed.

Lemma columns_loop_returns (tables : list MetadataInProcess)
    (rows : list (list Value)) (st : LoopState)
    (out : list MetadataInProcess) :
  correlated tables st ->
  columns_loop e config query st rows = inr out ->
  exists k, table_of <$> sent out = table_of <$> received tables k.
Proof.
  revert st. induction rows as [|src rows IH]; intros st Hinv Hloop; [done |].
  cbn [columns_loop] in Hloop.
  destruct (columns_body e config query st src) as [st1|out1] eqn:Hbody.
  - eapply IH; [|done]. by eapply columns_body_correlated.
  - injection Hloop as <-. by eapply columns_body_returns.
Qed.

(** Whatever the table stream and the rows, the Metadata that the
    correlator sends without error are the first tables received from the
    table stream, in the order received and one each: no table is sent
    twice, out of order, or with the fields of another table. *)
Theorem correlate_in_order (tables : list MetadataInProcess)
    (rows : list (list Value)) :
  exists k : nat,
    table_of <$> sent (correlate e config query tables rows)
    = table_of <$> received tables k.
Proof.
  unfold correlate.
  destruct (columns_loop e config query (start tables) rows) as [st|out]
    eqn:Hloop.
  - destruct (columns_loop_correlated e config query tables _ _ _ Hloop
                (start_correlated tables)) as (k & _ & Hsent).
    exists k. cbn [flush].
    destruct (meta st) as [held|]; simpl option_list in Hsent.
    + by rewrite sent_snoc_Data.
    + by rewrite app_nil_r in Hsent.
  - cbn [flush]. eapply columns_loop_returns; [|done].
    apply start_correlated.
Qed.

(** When the scan of a row fails while a table is held, the stream ends
    with the error of the scan: the table held, with the columns appended to
    it so far, is not sent, and the rows that follow are not read. *)
Theorem scan_error_drops_held (st : LoopState) (held : Metadata)
    (src : list Value) (rows : list (list Value)) (err : error) :
  meta st = Some held ->
  Query_Scan query src = inr err ->
  flush (columns_loop e config query st (src :: rows))
  = output st ++ [with_Err err].
Proof.
  intros Hmeta Hscan. cbn [columns_loop].
  rewrite (columns_body_held e config query _ held) by done.
  by rewrite Hscan.
Qed.

(** When the table stage has sent an envelope with an error, the correlator
    sends that envelope on when it receives it and stops: the rows that
    follow are not read. *)
Theorem table_error_forwarded (st : LoopState) (mip : MetadataInProcess)
    (input' : list MetadataInProcess) (err : error) (src : list Value)
    (rows : list (list Value)) :
  meta st = None ->
  input st = mip :: input' ->
  Err mip = Some err ->
  flush (columns_loop e config query st (src :: rows)) = output st ++ [mip].
Proof.
  intros Hmeta Hin Herr. cbn [columns_loop]. unfold columns_body, pull.
  by rewrite Hmeta, Hin; cbn [receive]; rewrite Herr.
Qed.

End CorrelatorOrder.

Lemma scan_error_drops_held_witness :
  correlate (H := example_runtime) Db2Extractor test_config example_query
    [with_Data (table "T1")]
    [column_row "T1" "A"; [string_value "DB2INST1"]; column_row "T1" "B"]
  = [with_Err "sql: expected destination arguments in Scan"].
Proof.
  apply (scan_error_drops_held (H := example_runtime) Db2Extractor test_config
           example_query
           {| meta := Some (set_Columns [column "A"] (table "T1"));
              col := Some (column "A"); formalName := "DB2INST1.T1";
              input := []; output := [] |}
           (set_Columns [column "A"] (table "T1")) [string_value "DB2INST1"]
           [column_row "T1" "B"]
           "sql: expected destination arguments in Scan").
  - reflexivity.
  - vm_compute. reflexivity.
Defined.

Lemma table_error_forwarded_witness :
  correlate (H := example_runtime) Db2Extractor test_config example_query
    [with_Err "SQL0551N"; with_Data (table "T1")]
    [column_row "T1" "A"; column_row "T1" "B"]
  = [with_Err "SQL0551N"].
Proof.
  apply (table_error_forwarded (H := example_runtime) Db2Extractor test_config
           example_query (start [with_Err "SQL0551N"; with_Data (table "T1")])
           (with_Err "SQL0551N") [with_Data (table "T1")] "SQL0551N"
           (column_row "T1" "A") [column_row "T1" "B"]);
    reflexivity.
Defined.

(** ** The query helpers, further *)

Section QueryHelpers.
Context `{GoRuntime}.

Lemma Map_loop_sound (ns : list string) (i : nat) (vs : list string)
    (m : gmap string string) (name v : string) :
  Map_loop i ns vs m !! name = Some v ->
  m !! name = Some v
  \/ (v <> ""
      /\ exists j, ns !! j = Some name /\ vs !! (i + j)%nat = Some v).
Proof.
  revert i m. induction ns as [|n ns IH]; intros i m Hlook; [by left |].
  cbn [Map_loop] in Hlook. apply IH in Hlook as [Hm | (Hv & j & Hj & Hvs)].
  - destruct (vs !! i) as [w|] eqn:Hw; [|by left].
    destruct (decide (w = "")) as [->|Hne]; [by left |].
    destruct (decide (n = name)) as [->|Hn].
    + rewrite lookup_insert_eq in Hm. injection Hm as ->. right.
      split; [done |]. exists 0%nat. by rewrite Nat.add_0_r.
    + rewrite lookup_insert_ne in Hm by done. by left.
  - right. split; [done |]. exists (S j). split; [done |].
    by rewrite <- Nat.add_succ_comm.
Qed.

(** Whatever the names of a Row, repeated or not, every entry of its map
    is a name of the Row with a value of that name, and the value is not
    empty. *)
Theorem Map_sound (r : Row) (name v : string) :
  Map r !! name = Some v ->
  v <> ""
  /\ exists i, names r !! i = Some name /\ values r !! i = Some v.
Proof.
  unfold Map. intros Hlook.
  apply Map_loop_sound in Hlook as [Hempty | Hfound]; [done | done].
Qed.

Lemma zip_with_scanned (src : list Value) (n : nat) :
  length src = n ->
  zip_with scanned (replicate n "") src = scanned "" <$> src.
Proof.
  revert n. induction src as [|value src IH]; intros [|n] Hlen;
    try done.
  cbn [replicate zip_with fmap list_fmap]. f_equal. apply IH.
  by injection Hlen.
Qed.

(** [Query.Scan] on the Row of [NewQuery] succeeds exactly when the result
    row has as many values as the query has columns; the Row then has one
    value per name, the canonical string of each value, so that [Row.Map]
    never reads past the values. *)
Theorem Query_Scan_arity (columns : list string) (stmt : string)
    (src : list Value) :
  (length src = length columns ->
   Rows_Scan (row (NewQuery columns stmt)) src
   = inl {| names := columns; values := scanned "" <$> src |}
   /\ Query_Scan (NewQuery columns stmt) src
      = inl (Map {| names := columns; values := scanned "" <$> src |})
   /\ length (scanned "" <$> src) = length columns)
  /\ (length src <> length columns ->
      exists err, Query_Scan (NewQuery columns stmt) src = inr err).
Proof.
  unfold Query_Scan, Rows_Scan, NewQuery, NewRow. cbn [row names values].
  rewrite length_replicate. split.
  - intros Hlen. rewrite decide_True by done.
    rewrite zip_with_scanned by done. by rewrite length_fmap.
  - intros Hlen. rewrite decide_False by done. by eexists.
Qed.

(** [ColumnList] hands on the error of its query; else it returns one name
    per row of the result, in order: the string of a row that is a string,
    and the empty name for a row that is NULL, for which the error of
    [rows.Scan] is dropped. *)
Theorem ColumnList_names (answer : QueryResult) :
  match answer with
  | inr err => ColumnList answer = inr err
  | inl rows =>
      exists names : list string,
        ColumnList answer = inl names
        /\ length names = length rows
        /\ (forall (i : nat) (s : string),
              rows !! i = Some [string_value s] -> names !! i = Some s)
        /\ (forall i : nat,
              rows !! i = Some [nil_value] -> names !! i = Some "")
  end.
Proof.
  destruct answer as [rows|err]; [|done].
  eexists. split; [done |]. split; [by rewrite length_fmap |].
  split; intros i; intros; by rewrite list_lookup_fmap; simplify_option_eq.
Qed.

End QueryHelpers.

Lemma Map_sound_witness :
  Map {| names := ["A"; "A"]; values := ["x"; ""] |} !! "A" = Some "x"
  /\ "x" <> "".
Proof.
  assert (Map {| names := ["A"; "A"]; values := ["x"; ""] |} !! "A"
          = Some "x") as Hlook by (vm_compute; reflexivity).
  destruct (Map_sound _ _ _ Hlook) as [Hne _]. by split.
Defined.

Lemma Query_Scan_arity_witness :
  exists err,
    Query_Scan (H := example_runtime) example_query
      [string_value "DB2INST1"] = inr err.
Proof.
  destruct (Query_Scan_arity (H := example_runtime) example_columns
              (Db2_columns_FROM (TargetSchemaInClause test_config))
              [string_value "DB2INST1"]) as [_ Herr].
  apply Herr. by vm_compute.
Defined.

(** ** Serialization, further *)

Lemma occurrences_app (c : ascii) (a b : string) :
  occurrences c (a +:+ b) = (occurrences c a + occurrences c b)%nat.
Proof.
  induction a as [|x a IH]; [done |].
  rewrite append_cons. cbn [occurrences]. rewrite IH. lia.
Qed.

Lemma occurrences_names (c : ascii) (m : Metadata) (col : Column) :
  c = "010"%char \/ c = ","%char ->
  occurrences c (MetaTypeName m) = 0%nat
  /\ occurrences c (ModeName col) = 0%nat
  /\ occurrences c (ConstraintName (Column_KeyType col)) = 0%nat.
Proof.
  unfold MetaTypeName, ModeName, ConstraintName.
  intros [-> | ->]; split_and!; repeat case_match; reflexivity.
Qed.

Lemma occurrences_column_records (c : ascii) (cs : list Column) :
  c = "010"%char \/ c = ","%char ->
  occurrences c (unlines (map column_record cs))
  = ((if Ascii.eqb c "010" then 1 else 7) * length cs
     + sum_list ((fun col => sum_list (occurrences c <$> Column_texts col))
                   <$> cs))%nat.
Proof.
  intros Hc. induction cs as [|col cs IH]; [simpl; lia |].
  cbn [map unlines foldr length fmap list_fmap sum_list].
  change (foldr (fun l acc => l +:+ LF +:+ acc) "" (map column_record cs))
    with (unlines (map column_record cs)).
  rewrite !occurrences_app, IH.
  unfold column_record, record, Column_texts. cbn [Join].
  rewrite !occurrences_app.
  destruct (occurrences_names c zero_Metadata col Hc) as (_ & -> & ->).
  cbn [fmap list_fmap sum_list].
  destruct Hc as [-> | ->]; cbn [occurrences Ascii.eqb Bool.eqb LF];
    unfold id; lia.
Qed.

(** [ToCSVString] does not escape: it writes two line feeds and one per
    column, and six commas and seven per column, besides the line feeds and
    the commas of the texts of the Metadata and of its columns.  A Metadata
    whose texts hold no line feed is written on as many lines as it has
    columns, and two. *)
Theorem ToCSVString_occurrences (m : Metadata) :
  occurrences "010" (ToCSVString m)
  = (2 + length (Columns m) + occurrences_in_texts "010" m)%nat
  /\ occurrences "," (ToCSVString m)
     = (6 + 7 * length (Columns m) + occurrences_in_texts "," m)%nat
  /\ (occurrences_in_texts "010" m = 0%nat ->
      occurrences "010" (ToCSVString m) = (2 + length (Columns m))%nat).
Proof.
  assert (forall c, c = "010"%char \/ c = ","%char ->
            occurrences c (ToCSVString m)
            = ((if Ascii.eqb c "010" then 2 else 6)
               + (if Ascii.eqb c "010" then 1 else 7) * length (Columns m)
               + occurrences_in_texts c m)%nat) as Hcount.
  { intros c Hc. unfold ToCSVString, WriteString.
    rewrite foldl_write_column, !occurrences_app.
    rewrite occurrences_column_records by done.
    unfold Sprintf_20, occurrences_in_texts, Metadata_texts.
    rewrite !occurrences_app.
    destruct (occurrences_names c m zero_Column Hc) as (-> & _).
    cbn [fmap list_fmap sum_list].
    destruct Hc as [-> | ->]; cbn [occurrences Ascii.eqb Bool.eqb LF];
    unfold id; lia. }
  pose proof (Hcount "010"%char ltac:(by left)) as Hlf.
  pose proof (Hcount ","%char ltac:(by right)) as Hcomma.
  cbn [Ascii.eqb Bool.eqb] in Hlf, Hcomma.
  split_and!; [lia | lia | intros Hnone; lia].
Qed.

Lemma ToCSVString_occurrences_witness :
  occurrences "010" (ToCSVString emp) = 3%nat.
Proof.
  destruct (ToCSVString_occurrences emp) as (_ & _ & Hlines).
  rewrite Hlines; reflexivity.
Defined.

(** ** The closed table channel *)

Lemma toColumn_key_nonempty (d : Dialect) (config : Config)
    (m : gmap string string) :
  snd (toColumn (extractor_of d) config m) <> "".
Proof.
  rewrite toColumn_key. intros Heq.
  apply append_eq_nil in Heq as [_ Heq]. discriminate Heq.
Qed.

(** When the table channel is closed with no table sent, a row of a column
    does not end the stream with an error: the correlator takes the zero
    value of the closed channel as its table and sends an empty Metadata for
    the row, whose key, never empty, is not the empty formal name. *)
Theorem column_without_table `{GoRuntime} (d : Dialect) (config : Config)
    (query : Query) (src : list Value) (c : Column) (key : string) :
  column_of (extractor_of d) config query src = Some (c, key) ->
  correlate (extractor_of d) config query [] [src]
  = [with_Data zero_Metadata]
  /\ ToCSVString zero_Metadata = unlines ["20,,,,,,"; ""].
Proof.
  intros Hsrc. split; [|reflexivity].
  assert (FormalName zero_Metadata <> key) as Hne.
  { unfold column_of in Hsrc.
    destruct (Query_Scan query src) as [m|]; [|done].
    injection Hsrc as Hsrc. intros Heq.
    apply (toColumn_key_nonempty d config m). by rewrite Hsrc, <- Heq. }
  unfold correlate, start. cbn [columns_loop].
  unfold columns_body, pull.
  cbn [meta input receive Err zero_MetadataInProcess col Data].
  by rewrite (accumulate_differ (extractor_of d) config query _ _ _ c key).
Qed.

Lemma column_without_table_witness :
  correlate (H := example_runtime) (extractor_of SYSCAT) test_config
    example_query [] [column_row "T1" "A"]
  = [with_Data zero_Metadata].
Proof.
  destruct (column_without_table (H := example_runtime) SYSCAT test_config
              example_query (column_row "T1" "A") (column "A")
              "DB2INST1.T1") as [Heq _].
  - vm_compute. reflexivity.
  - exact Heq.
Defined.

(** ** The last table with a single column *)

Section LastSingle.
Context `{GoRuntime}.
Variables (e : Extractor) (config : Config) (query : Query).

Abbreviation maps_to key :=
  (fun src => exists c, column_of e config query src = Some (c, key)).

(** From a column carried over for the table [t], through the rows of [t]
    and the first row of the next table: [t] is sent complete, and the column
    of that row is carried over. *)
Lemma columns_loop_carry_next (t t' : Metadata) (c c' : Column)
    (rows rest : list (list Value)) (src' : list Value)
    (inp out : list MetadataInProcess) :
  Forall (maps_to (FormalName t)) rows ->
  column_of e config query src' = Some (c', FormalName t') ->
  FormalName t' <> FormalName t ->
  columns_loop e config query
    {| meta := None; col := Some c; formalName := FormalName t;
       input := with_Data t :: inp; output := out |}
    (rows ++ src' :: rest)
  = columns_loop e config query
      {| meta := None; col := Some c'; formalName := FormalName t';
         input := inp;
         output := out ++ [with_Data
                             (set_Columns
                                (Columns t
                                 ++ c :: columns_of e config query rows) t)] |}
      rest.
Proof.
  intros Hrows Hc' Hkey. destruct rows as [|src rows].
  - cbn [app columns_loop]. rewrite columns_body_carry.
    by rewrite (accumulate_differ e config query _ _ _ c' (FormalName t')).
  - apply Forall_cons in Hrows as [[c2 Hc2] Hrows].
    cbn [app columns_loop]. rewrite columns_body_carry.
    rewrite (accumulate_match e config query _ _ _ c2) by done.
    cbn [input output].
    destruct (columns_loop_held e config query rows (src' :: rest)
                (append_Column c2 (append_Column c t))
                (Some c2) (FormalName (append_Column c t)) inp out Hrows)
      as (c1 & f1 & Heq).
    rewrite Heq. cbn [columns_loop].
    erewrite (columns_body_held e config query) by reflexivity.
    rewrite (accumulate_differ e config query _ _ _ c' (FormalName t'))
      by done.
    cbn [input output].
    rewrite set_Columns_append, set_Columns_append.
    by rewrite (columns_of_cons e config query _ _ c2 _ Hc2).
Qed.

Lemma removelast_fmap {A B} (f : A -> B) (l : list A) :
  removelast (f <$> l) = f <$> removelast l.
Proof.
  induction l as [|x [|y l] IH]; [done | done |].
  cbn [fmap list_fmap removelast] in *. by rewrite IH.
Qed.

Lemma columns_loop_carry_single (groups : list Group) (t : Metadata)
    (c : Column) (rows : list (list Value))
    (inp out : list MetadataInProcess) :
  Forall (maps_to (FormalName t)) rows ->
  chained e config query (FormalName t) groups ->
  (groups = [] -> rows = []) ->
  (forall g, last groups = Some g -> length (snd g) = 1%nat) ->
  flush (columns_loop e config query
           {| meta := None; col := Some c; formalName := FormalName t;
              input := with_Data t :: (with_Data ∘ fst <$> groups) ++ inp;
              output := out |}
           (rows ++ concat (snd <$> groups)))
  = out
    ++ removelast
         (with_Data (set_Columns
                       (Columns t ++ c :: columns_of e config query rows) t)
          :: (with_Data ∘ complete e config query <$> groups)).
Proof.
  revert t c rows out.
  induction groups as [|[t' rows'] groups IH];
    intros t c rows out Hrows Hchain Hnil Hlast.
  - rewrite (Hnil eq_refl). cbn. by rewrite app_nil_r.
  - destruct Hchain as (Hkey & [Hne' Hrows'] & Hchain). cbn [fst snd] in *.
    destruct rows' as [|src' rows']; [done |].
    apply Forall_cons in Hrows' as [[c' Hc'] Hrows'].
    cbn [fmap list_fmap concat compose fst snd app].
    rewrite (columns_loop_carry_next t t' c c' rows _ src' _ out Hrows Hc' Hkey).
    rewrite IH; [|done|done| |].
    + rewrite <- app_assoc. f_equal. cbn [app removelast].
      assert (complete e config query (t', src' :: rows')
              = set_Columns
                  (Columns t' ++ c' :: columns_of e config query rows') t')
        as ->; [|done].
      unfold complete. cbn [fst snd].
      by rewrite (columns_of_cons e config query _ _ c' _ Hc').
    + intros ->. specialize (Hlast _ eq_refl). cbn in Hlast.
      by destruct rows'.
    + intros g Hg. apply Hlast.
      destruct groups; [done | by rewrite last_cons_cons].
Qed.

(** When the table that comes last is not the only one and has a single
    row of columns, the correlator sends every table before it complete and
    in order, and does not send the last table: its column ends the table
    before it, and no row follows to receive it. *)
Theorem correlate_last_single (groups : list Group) (g : Group) :
  NoDup (FormalName ∘ fst <$> groups) ->
  Forall (has_its_columns e config query) groups ->
  (2 <= length groups)%nat ->
  last groups = Some g ->
  length (snd g) = 1%nat ->
  correlate e config query (with_Data ∘ fst <$> groups)
    (concat (snd <$> groups))
  = with_Data ∘ complete e config query <$> removelast groups.
Proof.
  intros Hnd Hall Hlen Hlast Hone.
  destruct groups as [|[t rows] [|[t' rows'] groups]];
    [simpl in Hlen; lia | simpl in Hlen; lia |].
  pose proof (chained_NoDup e config query (FormalName t)
                ((t', rows') :: groups) Hnd
                (proj2 (proj1 (Forall_cons _ _ _) Hall))) as Hchain.
  apply Forall_cons in Hall as [[Hne Hrows] Hall]. cbn [fst snd] in *.
  destruct rows as [|src rows]; [done |].
  apply Forall_cons in Hrows as [[c Hc] Hrows].
  destruct Hchain as (Hkey & [Hne' Hrows'] & Hchain). cbn [fst snd] in *.
  destruct rows' as [|src' rows']; [done |].
  apply Forall_cons in Hrows' as [[c' Hc'] Hrows'].
  unfold correlate, start.
  cbn [fmap list_fmap concat compose fst snd app columns_loop].
  unfold columns_body at 1, pull.
  cbn [meta input receive Err with_Data col Data].
  rewrite (accumulate_match e config query _ _ _ c) by done.
  cbn [input output].
  destruct (columns_loop_held e config query rows
              (src' :: rows' ++ concat (snd <$> groups))
              (append_Column c t) (Some c) (FormalName t)
              (with_Data t' :: (with_Data ∘ fst <$> groups)) [] Hrows)
    as (c1 & f1 & Heq).
  rewrite Heq. cbn [columns_loop].
  erewrite (columns_body_held e config query) by reflexivity.
  rewrite (accumulate_differ e config query _ _ _ c' (FormalName t'))
    by done.
  cbn [input output app].
  pose proof (columns_loop_carry_single groups t' c' rows' []
                [with_Data
                   (set_Columns
                      (Columns (append_Column c t)
                       ++ columns_of e config query rows)
                      (append_Column c t))]) as Hcarry.
  rewrite app_nil_r in Hcarry. rewrite Hcarry; [|done|done| |].
  - assert (complete e config query (t, src :: rows)
            = set_Columns
                (Columns (append_Column c t)
                 ++ columns_of e config query rows) (append_Column c t))
      as Hfirst.
    { unfold complete. cbn [fst snd].
      by rewrite (columns_of_cons e config query _ _ c _ Hc),
        set_Columns_append. }
    assert (complete e config query (t', src' :: rows')
            = set_Columns
                (Columns t' ++ c' :: columns_of e config query rows') t')
      as Hsecond.
    { unfold complete. cbn [fst snd].
      by rewrite (columns_of_cons e config query _ _ c' _ Hc'). }
    rewrite <- Hfirst, <- Hsecond.
    change (with_Data (complete e config query (t', src' :: rows'))
            :: (with_Data ∘ complete e config query <$> groups))
      with (with_Data ∘ complete e config query
              <$> (t', src' :: rows') :: groups).
    rewrite removelast_fmap. reflexivity.
  - intros ->. cbn in Hlast. injection Hlast as <-. cbn in Hone.
    by destruct rows'.
  - intros g0 Hg0. rewrite !last_cons_cons in Hlast.
    destruct groups as [|g1 groups]; [done |].
    rewrite last_cons_cons in Hlast. rewrite Hlast in Hg0.
    by injection Hg0 as <-.
Qed.

End LastSingle.

Lemma correlate_last_single_witness :
  correlate (H := example_runtime) Db2Extractor test_config example_query
    (with_Data <$> [table "T1"; table "T2"; table "T3"; table "T4"])
    (concat (snd <$> short_tail_groups))
  = [with_Data (set_Columns [column "A"; column "B"] (table "T1"));
     with_Data (set_Columns [column "C"] (table "T2"));
     with_Data (set_Columns [column "D"; column "E"] (table "T3"))].
Proof.
  assert (NoDup (FormalName ∘ fst <$> short_tail_groups)) as Hnd.
  { apply (bool_decide_unpack _). vm_compute. exact I. }
  assert (Forall (has_its_columns Db2Extractor test_config example_query)
            short_tail_groups) as Hall.
  { repeat first
      [ apply Forall_nil_2
      | apply Forall_cons_2
      | split; [discriminate |]
      | eexists; vm_compute; reflexivity ]. }
  exact (correlate_last_single Db2Extractor test_config example_query
           short_tail_groups (table "T4", [column_row "T4" "F"])
           Hnd Hall ltac:(simpl; lia) eq_refl eq_refl).
Defined.

Lemma toMetadata_routes_remarks_witness :
  Metadata_Alias (toMetadata (extractor_of QSYS2) test_config
                    (remarked_row QSYS2)) = "Employees"
  /\ Metadata_Description (toMetadata (extractor_of QSYS2) test_config
                            (remarked_row QSYS2)) = "Employees".
Proof.
  assert (QSYS2 <> SYSCAT) as Hd by discriminate.
  destruct (toMetadata_routes_remarks QSYS2 test_config (remarked_row QSYS2)
              "Employees" Hd eq_refl) as [Ha Hdesc].
  rewrite Ha, Hdesc. split; vm_compute; reflexivity.
Defined.

Lemma ColumnList_names_witness :
  ColumnList (H := example_runtime)
    (inl [[string_value "TABSCHEMA"]; [nil_value]; [string_value "TABNAME"]])
  = inl ["TABSCHEMA"; ""; "TABNAME"].
Proof.
  destruct (ColumnList_names (H := example_runtime)
              (inl [[string_value "TABSCHEMA"]; [nil_value];
                    [string_value "TABNAME"]]))
    as (names & Heq & _ & _ & Hnull).
  rewrite Heq. injection Heq as <-. reflexivity.
Defined.
